(** * Creator's Co-Pilot: the request orchestrator of [App.jsx]

    A shallow embedding of the four event handlers of the [App] component
    ([handleGenerateScript], [handleSubmitFromText], [handleFileChange],
    [handleGenerateAudio]) together with the parts of the JavaScript
    run-time they rely on: strings as sequences of UTF-16 code units,
    [String.prototype.includes], [String.prototype.split] with the
    separator [/\s+/], [Array.prototype.join], JSON values, truthiness,
    string conversion, and [try]/[catch]/[finally]. *)

From Stdlib Require Import List NArith ZArith Bool Lia String Ascii.
From Stdlib Require DecimalString.
Import ListNotations.

Set Implicit Arguments.

(** ** JavaScript strings *)

(** A JavaScript string is a finite sequence of 16-bit code units. *)
Definition code_unit := N.
Definition jsstring := list code_unit.

(** A string literal of the source whose characters are all ASCII. *)
Definition lit (s : string) : jsstring :=
  map N_of_ascii (list_ascii_of_string s).
Arguments lit s%_string.

Fixpoint jsstring_eqb (a b : jsstring) : bool :=
  match a, b with
  | [], [] => true
  | x :: a', y :: b' => N.eqb x y && jsstring_eqb a' b'
  | _, _ => false
  end.

(** The characters matched by the class [\s] of a regular expression
    without the [u] flag: WhiteSpace and LineTerminator code points, all of
    which are single code units. *)
Definition is_whitespace (c : code_unit) : bool :=
  ((9 <=? c) && (c <=? 13)           (* TAB, LF, VT, FF, CR *)
   || (c =? 32)                      (* SPACE *)
   || (c =? 160)                     (* NO-BREAK SPACE *)
   || (c =? 5760)                    (* OGHAM SPACE MARK *)
   || ((8192 <=? c) && (c <=? 8202)) (* EN QUAD .. HAIR SPACE *)
   || (c =? 8232) || (c =? 8233)     (* LINE / PARAGRAPH SEPARATOR *)
   || (c =? 8239)                    (* NARROW NO-BREAK SPACE *)
   || (c =? 8287)                    (* MEDIUM MATHEMATICAL SPACE *)
   || (c =? 12288)                   (* IDEOGRAPHIC SPACE *)
   || (c =? 65279))%N.               (* ZERO WIDTH NO-BREAK SPACE *)

(** [s.startsWith(p)] *)
Fixpoint starts_with (p s : jsstring) : bool :=
  match p, s with
  | [], _ => true
  | x :: p', y :: s' => N.eqb x y && starts_with p' s'
  | _ :: _, [] => false
  end.

(** [s.includes(p)]: [p] occurs in [s] at some position. *)
Fixpoint includes (s p : jsstring) : bool :=
  starts_with p s ||
  match s with
  | [] => false
  | _ :: s' => includes s' p
  end.

(** [s.split(/\s+/)].  The split algorithm of regular expressions scans
    the string from the position [p] where the current piece starts; at
    the first position [q >= p] where the separator matches, the piece
    [S[p..q)] is emitted and scanning resumes at the end [e] of the match;
    when the end of the string is reached the last piece [S[p..size)] is
    emitted.  The separator [\s+] matches at [q] exactly when [S[q]] is
    whitespace and, being greedy, extends to the end of the run of
    whitespace, so a match is never empty.

    [split_loop piece in_match s]: [s] is the part of the string still to
    scan, [piece] the code units of the current piece read so far, and
    [in_match] tells that the code units in front of [s] belong to a
    separator match that is still running. *)
Fixpoint split_loop (piece : jsstring) (in_match : bool) (s : jsstring)
  : list jsstring :=
  match s with
  | [] => [piece]
  | c :: r =>
      if is_whitespace c then
        if in_match then split_loop piece true r
        else piece :: split_loop [] true r
      else split_loop (piece ++ [c]) false r
  end.

Definition split_whitespace (s : jsstring) : list jsstring :=
  split_loop [] false s.

(** The rest of [s] after its leading run of whitespace. *)
Fixpoint drop_whitespace (s : jsstring) : jsstring :=
  match s with
  | [] => []
  | c :: r => if is_whitespace c then drop_whitespace r else s
  end.

(** [a.join(sep)] on an array of strings. *)
Fixpoint join (sep : jsstring) (a : list jsstring) : jsstring :=
  match a with
  | [] => []
  | [x] => x
  | x :: rest => x ++ sep ++ join sep rest
  end.

(** ** Words of the specification about strings *)

(** "contains the literal substring [p]". *)
Definition contains_substring (s p : jsstring) : Prop :=
  exists pre post, s = pre ++ p ++ post.

(** "whitespace-delimited token count": the number of maximal runs of
    characters that are not whitespace.  [in_token] tells that the
    character in front of [s] belongs to a token. *)
Fixpoint count_tokens (in_token : bool) (s : jsstring) : nat :=
  match s with
  | [] => 0
  | c :: r =>
      if is_whitespace c then count_tokens false r
      else (if in_token then 0 else 1) + count_tokens true r
  end.

Definition token_count (s : jsstring) : nat := count_tokens false s.

Definition leading_whitespace (s : jsstring) : bool :=
  match s with
  | [] => false
  | c :: _ => is_whitespace c
  end.

(** Whether the last code unit of [s] is whitespace; [prev] answers for
    the empty string. *)
Fixpoint ends_in_whitespace (prev : bool) (s : jsstring) : bool :=
  match s with
  | [] => prev
  | c :: r => ends_in_whitespace (is_whitespace c) r
  end.

Definition trailing_whitespace (s : jsstring) : bool :=
  ends_in_whitespace false s.

(** ** Input classification, lines 92-97 of [handleSubmitFromText] *)

Definition classify (userInput : jsstring) : jsstring :=
  let sourceType := lit "topic" in
  if includes userInput (lit "github.com/") then lit "github"
  else if 50 <? List.length (split_whitespace userInput) then lit "script"
  else sourceType.


(** ** The JavaScript engine

    What the handlers use of the engine and is not fixed by the source:
    the numbers of JSON (IEEE doubles) with their truthiness and their
    string conversion, and the texts of the [TypeError]s the engine
    throws. *)
Class Engine := {
  number : Type;
  (** [ToBoolean]: false on [+0], [-0] and [NaN]. *)
  number_truthy : number -> bool;
  (** [Number::toString]. *)
  number_to_string : number -> jsstring;
  (** Message of the [TypeError] thrown when the named property of
      [null] is read. *)
  null_property_message : jsstring -> jsstring;
  (** Message of the [TypeError] thrown when an object has no primitive
      value. *)
  to_primitive_message : jsstring
}.

Section Orchestrator.

Context {engine : Engine}.

(** ** Values *)

(** The result of [JSON.parse] (via [response.json()]).  The members of
    an object are listed in source order. *)
#[warnings="-register-all"]
Inductive json : Type :=
| JNull
| JBool (b : bool)
| JNumber (n : number)
| JString (s : jsstring)
| JArray (elements : list json)
| JObject (members : list (jsstring * json)).

(** A value read from a property: [None] is [undefined]. *)
Definition value := option json.

(** A thrown [Error] object; only [err.message] is ever read. *)
Record error_object := Error { message : jsstring }.

Inductive result (A : Type) : Type :=
| Ok (a : A)
| Throw (e : error_object).
#[global] Arguments Ok {A} a.
#[global] Arguments Throw {A} e.

(** [ToBoolean]. *)
Definition truthy (v : value) : bool :=
  match v with
  | None => false
  | Some JNull => false
  | Some (JBool b) => b
  | Some (JNumber n) => number_truthy n
  | Some (JString s) => negb (jsstring_eqb s [])
  | Some (JArray _) => true
  | Some (JObject _) => true
  end.

(** The own property [key] of an object built by [JSON.parse]: of several
    members with the same name the last one wins. *)
Fixpoint own_property (members : list (jsstring * json)) (key : jsstring)
  : value :=
  match members with
  | [] => None
  | (k, v) :: rest =>
      match own_property rest key with
      | Some w => Some w
      | None => if jsstring_eqb k key then Some v else None
      end
  end.

(** [v.key] for a property name that no prototype defines ([detail],
    [script], [audio_url]): reading from [null] throws, objects answer
    with their own property, every other value with [undefined]. *)
Definition get_property (v : json) (key : jsstring) : result value :=
  match v with
  | JNull => Throw (Error (null_property_message key))
  | JObject members => Ok (own_property members key)
  | _ => Ok None
  end.

(** [a || b] *)
Definition or_else (a : value) (b : value) : value :=
  if truthy a then a else b.

(** [ToString] on a JSON value.  A string is itself; an array joins the
    conversions of its elements with a comma, [null] elements giving the
    empty string; an object inherits [Object.prototype.toString] unless it
    has an own member [toString], which is never callable and leaves the
    object without a primitive value. *)
Fixpoint json_to_string (v : json) : result jsstring :=
  match v with
  | JNull => Ok (lit "null")
  | JBool true => Ok (lit "true")
  | JBool false => Ok (lit "false")
  | JNumber n => Ok (number_to_string n)
  | JString s => Ok s
  | JArray elements =>
      (fix elements_to_string (l : list json) : result jsstring :=
         match l with
         | [] => Ok []
         | x :: rest =>
             match (match x with JNull => Ok [] | _ => json_to_string x end)
             with
             | Throw e => Throw e
             | Ok sx =>
                 match rest with
                 | [] => Ok sx
                 | _ :: _ =>
                     match elements_to_string rest with
                     | Throw e => Throw e
                     | Ok sr => Ok (sx ++ lit "," ++ sr)
                     end
                 end
             end
         end) elements
  | JObject members =>
      match own_property members (lit "toString") with
      | Some _ => Throw (Error to_primitive_message)
      | None => Ok (lit "[object Object]")
      end
  end.

Definition ToString (v : value) : result jsstring :=
  match v with
  | None => Ok (lit "undefined")
  | Some j => json_to_string j
  end.

(** ** Component state *)

(** The [useState] cells of [App]; [null] is [JNull] for [scriptData] and
    [None] for [audioUrl] and [error]. *)
Record State := mkState {
  userInput : jsstring;
  scriptData : json;
  audioUrl : option jsstring;
  isLoadingScript : bool;
  isLoadingAudio : bool;
  error : option jsstring
}.

(** The initial values given to [useState]. *)
Definition initial_state : State :=
  mkState [] JNull None false false None.

(** A call of one of the state setters used by the handlers. *)
Inductive update : Type :=
| setError (v : option jsstring)
| setScriptData (v : json)
| setAudioUrl (v : option jsstring)
| setIsLoadingScript (b : bool)
| setIsLoadingAudio (b : bool).

Definition apply_update (u : update) (st : State) : State :=
  match u with
  | setError v =>
      mkState (userInput st) (scriptData st) (audioUrl st)
              (isLoadingScript st) (isLoadingAudio st) v
  | setScriptData v =>
      mkState (userInput st) v (audioUrl st)
              (isLoadingScript st) (isLoadingAudio st) (error st)
  | setAudioUrl v =>
      mkState (userInput st) (scriptData st) v
              (isLoadingScript st) (isLoadingAudio st) (error st)
  | setIsLoadingScript b =>
      mkState (userInput st) (scriptData st) (audioUrl st)
              b (isLoadingAudio st) (error st)
  | setIsLoadingAudio b =>
      mkState (userInput st) (scriptData st) (audioUrl st)
              (isLoadingScript st) b (error st)
  end.

(** ** Network *)

(** The arguments of a call of [fetch].  [body] is the value handed to
    [JSON.stringify]; the text sent is its serialisation. *)
Record request := mkRequest {
  url : jsstring;
  method : jsstring;
  headers : list (jsstring * jsstring);
  body : json
}.

(** A [Response]: its [ok] flag and what [response.json()] settles to. *)
Record Response := mkResponse {
  ok : bool;
  json_body : result json
}.

(** A selected file: its name and what [readAsText] ends with (the text,
    or a failure reported through [onerror]). *)
Record File := mkFile {
  name : jsstring;
  read_as_text : result jsstring
}.

(** ** Asynchronous handlers

    A handler is a tree of the effects it performs: calls of state
    setters, one call of [fetch], and the points where it is suspended in
    an [await].  An exception unwinds to the enclosing [catch]; one that
    nothing catches rejects the promise of the handler. *)
Inductive task (A : Type) : Type :=
| Return (a : A)
| Raise (e : error_object)
| Call (u : update) (k : task A)
| Fetch (req : request) (k : result Response -> task A)
| Await (k : task A).
#[global] Arguments Return {A} a.
#[global] Arguments Raise {A} e.
#[global] Arguments Call {A} u k.
#[global] Arguments Fetch {A} req k.
#[global] Arguments Await {A} k.

Fixpoint bind {A B : Type} (t : task A) (f : A -> task B) : task B :=
  match t with
  | Return a => f a
  | Raise e => Raise e
  | Call u k => Call u (bind k f)
  | Fetch req k => Fetch req (fun r => bind (k r) f)
  | Await k => Await (bind k f)
  end.

(** [try { t } catch (err) { handler err }] *)
Fixpoint try_catch {A : Type} (t : task A) (handler : error_object -> task A)
  : task A :=
  match t with
  | Return a => Return a
  | Raise e => handler e
  | Call u k => Call u (try_catch k handler)
  | Fetch req k => Fetch req (fun r => try_catch (k r) handler)
  | Await k => Await (try_catch k handler)
  end.

(** [try { t } finally { cleanup }] *)
Fixpoint try_finally {A : Type} (t : task A) (cleanup : task unit) : task A :=
  match t with
  | Return a => bind cleanup (fun _ => Return a)
  | Raise e => bind cleanup (fun _ => Raise e)
  | Call u k => Call u (try_finally k cleanup)
  | Fetch req k => Fetch req (fun r => try_finally (k r) cleanup)
  | Await k => Await (try_finally k cleanup)
  end.

Definition try_catch_finally {A : Type} (t : task A)
  (handler : error_object -> task A) (cleanup : task unit) : task A :=
  try_finally (try_catch t handler) cleanup.

Declare Scope task_scope.
Delimit Scope task_scope with task.
Notation "x <- t ;; k" := (bind t (fun x => k))
  (at level 61, t at next level, right associativity) : task_scope.
Notation "t ;; k" := (bind t (fun _ => k))
  (at level 61, right associativity) : task_scope.
Local Open Scope task_scope.

Definition of_result {A : Type} (r : result A) : task A :=
  match r with
  | Ok a => Return a
  | Throw e => Raise e
  end.

(** A call of a state setter. *)
Definition set (u : update) : task unit := Call u (Return tt).

(** [await fetch(url, { method, headers, body })] *)
Definition await_fetch (req : request) : task Response :=
  Fetch req of_result.

(** [await response.json()] *)
Definition await_json (response : Response) : task json :=
  Await (of_result (json_body response)).

(** [Promise.all]: the results in order when every promise is fulfilled,
    otherwise a rejection (of the first promise in the list that is
    rejected; its reason is nowhere inspected). *)
Fixpoint promise_all {A : Type} (promises : list (result A))
  : result (list A) :=
  match promises with
  | [] => Ok []
  | Throw e :: _ => Throw e
  | Ok a :: rest =>
      match promise_all rest with
      | Ok l => Ok (a :: l)
      | Throw e => Throw e
      end
  end.

(** [await Promise.all(promises)] *)
Definition await_all {A : Type} (promises : list (result A))
  : task (list A) :=
  Await (of_result (promise_all promises)).

(** [throw new Error(v)]: the message is [ToString v]. *)
Definition throw_new_Error {A : Type} (v : value) : task A :=
  msg <- of_result (ToString v) ;; Raise (Error msg).

(** The members [JSON.stringify] writes for an object literal: a property
    whose value is [undefined] is left out. *)
Fixpoint defined_members (props : list (jsstring * value))
  : list (jsstring * json) :=
  match props with
  | [] => []
  | (k, Some j) :: rest => (k, j) :: defined_members rest
  | (_, None) :: rest => defined_members rest
  end.

Definition stringified_object (props : list (jsstring * value)) : json :=
  JObject (defined_members props).

Definition newline : jsstring := [10%N].

(** ** The handlers of [App] *)

Definition API_BASE_URL : jsstring := lit "http://127.0.0.1:8000".

Definition json_headers : list (jsstring * jsstring) :=
  [(lit "Content-Type", lit "application/json")].

(** The arguments of the call of [fetch] in [handleGenerateScript]. *)
Definition script_request (sourceType content : jsstring) : request :=
  mkRequest (API_BASE_URL ++ lit "/generate-script") (lit "POST")
    json_headers
    (stringified_object
       [(lit "source_type", Some (JString sourceType));
        (lit "content", Some (JString content))]).

(** The arguments of the call of [fetch] in [handleGenerateAudio], where
    [script] is the value of [scriptData.script]. *)
Definition audio_request (script : value) : request :=
  mkRequest (API_BASE_URL ++ lit "/generate-audio") (lit "POST")
    json_headers
    (stringified_object [(lit "script", script)]).

Definition handleGenerateScript (sourceType content : jsstring) : task unit :=
  set (setError None) ;;
  set (setScriptData JNull) ;;
  set (setAudioUrl None) ;;
  set (setIsLoadingScript true) ;;
  try_catch_finally
    (response <- await_fetch (script_request sourceType content) ;;
     (if negb (ok response) then
        errData <- await_json response ;;
        detail <- of_result (get_property errData (lit "detail")) ;;
        throw_new_Error
          (or_else detail (Some (JString (lit "Failed to generate script."))))
      else Return tt) ;;
     data <- await_json response ;;
     set (setScriptData data))
    (fun err => set (setError (Some (message err))))
    (set (setIsLoadingScript false)).

(** [handleSubmitFromText] reads [userInput] of the render it was created
    in.  The call of [handleGenerateScript] is its last statement and is
    not awaited: the effects of the callee are those of the handler. *)
Definition handleSubmitFromText (st : State) : task unit :=
  if negb (truthy (Some (JString (userInput st)))) then
    set (setError (Some (lit "Please provide input in the text area.")))
  else
    handleGenerateScript (classify (userInput st)) (userInput st).

(** What the promise created for [file] settles to. *)
Definition file_content (file : File) : result jsstring :=
  match read_as_text file with
  | Ok text => Ok (lit "--- CONTENT FROM " ++ name file ++ lit " ---"
                   ++ newline ++ text)
  | Throw err => Throw err
  end.

(** [files] is [event.target.files]; [None] stands for a missing list. *)
Definition handleFileChange (files : option (list File)) : task unit :=
  match files with
  | None | Some [] =>
      set (setError (Some (lit "Please upload at least one file.")))
  | Some files =>
      let fileContentPromises := map file_content files in
      contents <- await_all fileContentPromises ;;
      let content := join (newline ++ newline) contents in
      handleGenerateScript (lit "file") content
  end.

(** The guard of [handleGenerateAudio] failed, lines 122-123. *)
Definition no_script_error : task unit :=
  set (setError (Some (lit "No script available to generate audio from."))).

(** [handleGenerateAudio] after its guard, lines 125-145. *)
Definition audio_attempt (st : State) : task unit :=
  set (setError None) ;;
  set (setAudioUrl None) ;;
  set (setIsLoadingAudio true) ;;
  try_catch_finally
    (script <- of_result (get_property (scriptData st) (lit "script")) ;;
     response <- await_fetch (audio_request script) ;;
     (if negb (ok response) then
        errData <- await_json response ;;
        detail <- of_result (get_property errData (lit "detail")) ;;
        throw_new_Error
          (or_else detail (Some (JString (lit "Failed to generate audio."))))
      else Return tt) ;;
     data <- await_json response ;;
     audio_url <- of_result (get_property data (lit "audio_url")) ;;
     path <- of_result (ToString audio_url) ;;
     set (setAudioUrl (Some (API_BASE_URL ++ path))))
    (fun err => set (setError (Some (message err))))
    (set (setIsLoadingAudio false)).

(** [handleGenerateAudio] reads [scriptData] of the render it was created
    in.  The guard is [!scriptData || !scriptData.script]. *)
Definition handleGenerateAudio (st : State) : task unit :=
  if negb (truthy (Some (scriptData st))) then no_script_error
  else
    script <- of_result (get_property (scriptData st) (lit "script")) ;;
    if negb (truthy script) then no_script_error
    else audio_attempt st.

(** ** Running a handler *)

(** What a handler does, in order. *)
Inductive event : Type :=
| Performed (u : update)
| Issued (req : request)
| Suspended.

(** The events of a handler, when [network] tells how each request is
    answered. *)
Fixpoint events_of {A : Type} (network : request -> result Response)
  (t : task A) : list event :=
  match t with
  | Return _ => []
  | Raise _ => []
  | Call u k => Performed u :: events_of network k
  | Fetch req k => Issued req :: Suspended :: events_of network (k (network req))
  | Await k => Suspended :: events_of network k
  end.

(** How the promise of the handler settles: fulfilled, or rejected with
    an exception that nothing caught. *)
Fixpoint settles {A : Type} (network : request -> result Response)
  (t : task A) : result A :=
  match t with
  | Return a => Ok a
  | Raise e => Throw e
  | Call _ k => settles network k
  | Fetch req k => settles network (k (network req))
  | Await k => settles network k
  end.

(** The events up to the first suspension: what happens before the
    handler gives control back for the first time. *)
Fixpoint before_suspension (evs : list event) : list event :=
  match evs with
  | [] => []
  | Suspended :: _ => []
  | e :: rest => e :: before_suspension rest
  end.

(** The requests issued. *)
Fixpoint requests (evs : list event) : list request :=
  match evs with
  | [] => []
  | Issued req :: rest => req :: requests rest
  | _ :: rest => requests rest
  end.

(** The setter calls made. *)
Fixpoint updates (evs : list event) : list update :=
  match evs with
  | [] => []
  | Performed u :: rest => u :: updates rest
  | _ :: rest => updates rest
  end.

(** The component state after the setter calls of [evs], made on [st]
    with no other handler running in between. *)
Definition state_after (evs : list event) (st : State) : State :=
  fold_left (fun s u => apply_update u s) (updates evs) st.

(** ** Words of the specification about the handlers *)

(** "A ScriptResult with a non-empty script exists", the script being
    [script]: the negation of the guard of [handleGenerateAudio]. *)
Definition script_present (st : State) (script : json) : Prop :=
  get_property (scriptData st) (lit "script") = Ok (Some script)
  /\ truthy (Some script) = true.

(** "No ScriptResult exists or its script field is empty". *)
Definition script_absent (st : State) : Prop :=
  truthy (Some (scriptData st)) = false
  \/ exists script,
       get_property (scriptData st) (lit "script") = Ok script
       /\ truthy script = false.

(** The ways a generation attempt fails, with the message each one
    surfaces; [fallback] is the generic message of the operation. *)
Inductive failure (fallback : jsstring) : result Response -> jsstring -> Prop :=
| transport_failure (e : error_object) :
    failure fallback (Throw e) (message e)
| unreadable_body (response : Response) (e : error_object) :
    ok response = false ->
    json_body response = Throw e ->
    failure fallback (Ok response) (message e)
| server_detail (response : Response) (members : list (jsstring * json))
    (detail : jsstring) :
    ok response = false ->
    json_body response = Ok (JObject members) ->
    own_property members (lit "detail") = Some (JString detail) ->
    detail <> [] ->
    failure fallback (Ok response) detail
| no_detail (response : Response) (errData : json) (detail : value) :
    ok response = false ->
    json_body response = Ok errData ->
    get_property errData (lit "detail") = Ok detail ->
    truthy detail = false ->
    failure fallback (Ok response) fallback.

(** The section of one file in the combined payload: the header line
    and, on the next line, the text of the file. *)
Definition file_section (file_name text : jsstring) : jsstring :=
  lit "--- CONTENT FROM " ++ file_name ++ lit " ---" ++ newline ++ text.

(** The sections of the files in order, each but the last followed by the
    end of its last line and one blank line. *)
Fixpoint combined_payload (files : list (jsstring * jsstring)) : jsstring :=
  match files with
  | [] => []
  | [(file_name, text)] => file_section file_name text
  | (file_name, text) :: rest =>
      file_section file_name text ++ newline ++ newline
      ++ combined_payload rest
  end.

(** ** Properties of every run of a handler *)

(** Every setter call the task can make satisfies [P] and every request
    it can issue satisfies [Q], however the requests are answered. *)
Fixpoint task_forall {A : Type} (P : update -> Prop) (Q : request -> Prop)
  (t : task A) : Prop :=
  match t with
  | Return _ => True
  | Raise _ => True
  | Call u k => P u /\ task_forall P Q k
  | Fetch req k => Q req /\ forall r, task_forall P Q (k r)
  | Await k => task_forall P Q k
  end.

(** The task issues no request. *)
Definition no_fetch {A : Type} (t : task A) : Prop :=
  task_forall (fun _ => True) (fun _ => False) t.

(** The setter [u] is not the one of the audio-loading flag. *)
Definition keeps_isLoadingAudio (u : update) : Prop :=
  match u with
  | setIsLoadingAudio _ => False
  | _ => True
  end.

(** The setter [u] is not the one of the script-loading flag. *)
Definition keeps_isLoadingScript (u : update) : Prop :=
  match u with
  | setIsLoadingScript _ => False
  | _ => True
  end.

End Orchestrator.
(** An engine whose numbers are the integers, printed in decimal. *)
Definition decimal (z : Z) : jsstring :=
  map N_of_ascii
    (list_ascii_of_string (DecimalString.NilZero.string_of_int (Z.to_int z))).

#[export] Instance integer_engine : Engine := {|
  number := Z;
  number_truthy := fun z => negb (Z.eqb z 0);
  number_to_string := decimal;
  null_property_message := fun key =>
    lit "Cannot read properties of null (reading '" ++ key ++ lit "')";
  to_primitive_message := lit "Cannot convert object to primitive value"
|}.


(** ** Sample inputs *)

(** The backend cannot be reached: [fetch] rejects. *)
Definition offline : request -> result Response :=
  fun _ => Throw (Error (lit "Failed to fetch")).

(** The backend answers every request with [response]. *)
Definition answers (response : Response) : request -> result Response :=
  fun _ => Ok response.

(** The component after [text] was typed into the text area. *)
Definition typed (text : jsstring) : State :=
  mkState text JNull None false false None.

(** A space followed by fifty one-letter words, one space apart. *)
Definition fifty_words_after_space : jsstring :=
  List.concat (repeat (lit " w") 50).

(** The last of the example prompts of [App], followed by sixty words. *)
Definition long_github_input : jsstring :=
  lit "https://github.com/google/generative-ai-docs"
  ++ List.concat (repeat (lit " w") 60).

(** A script result as the backend returns it. *)
Definition sample_script_data : json :=
  JObject [(lit "script", JString (lit "Hello and welcome."));
           (lit "title", JString (lit "Pomodoro Timer App Explained"));
           (lit "description", JString (lit "A short walk-through."));
           (lit "tags", JArray [JString (lit "pomodoro"); JString (lit "timer")])].

(** The component showing [sample_script_data]. *)
Definition with_script : State :=
  mkState (lit "Pomodoro Timer App Explained") sample_script_data None
    false false None.

(** The component without a script result while an audio address from
    an earlier generation is still stored. *)
Definition with_audio_only : State :=
  mkState [] JNull (Some (API_BASE_URL ++ lit "/audio/old.wav"))
    false false None.

(** A failure response carrying [detail]. *)
Definition failure_response (detail : jsstring) : Response :=
  mkResponse false (Ok (JObject [(lit "detail", JString detail)])).

(** The success response of [/generate-audio] for [path]. *)
Definition audio_response (path : jsstring) : Response :=
  mkResponse true (Ok (JObject [(lit "audio_url", JString path)])).

(** Two files of which the second cannot be read. *)
Definition unreadable_selection : list File :=
  [mkFile (lit "a.txt") (Ok (lit "hello"));
   mkFile (lit "b.txt") (Throw (Error (lit "NotReadableError")))].

(** Two files that are read. *)
Definition readable_selection : list File :=
  [mkFile (lit "a.txt") (Ok (lit "hello"));
   mkFile (lit "b.txt") (Ok (lit "world"))].

(** ** The cursor trail, [BubblingCursor]

    The list of bubbles is updated by two functional updates: the one
    of [handleMouseMove] appends the new bubble, the one of its timer
    filters the bubbles by identifier.  The identifier and the size are
    numbers drawn from the clock and the random generator; [strict_equal]
    is [===] on numbers. *)
Section Cursor.

Context {engine : Engine}.

Variable strict_equal : number -> number -> bool.

Record Bubble := mkBubble {
  id : number;
  x : number;
  y : number;
  size : number
}.

(** [(prevBubbles) => [...prevBubbles, newBubble]] *)
Definition add_bubble (newBubble : Bubble) (prevBubbles : list Bubble)
  : list Bubble :=
  prevBubbles ++ [newBubble].

(** [(prev) => prev.filter((b) => b.id !== newBubble.id)] *)
Definition remove_bubble (newBubble : Bubble) (prev : list Bubble)
  : list Bubble :=
  filter (fun b => negb (strict_equal (id b) (id newBubble))) prev.

(** The timers of the bubbles [fired] run, in that order. *)
Definition timers_fire (fired : list Bubble) (bubbles : list Bubble)
  : list Bubble :=
  fold_left (fun prev b => remove_bubble b prev) fired bubbles.

End Cursor.

(** ** The example prompts of [App] *)

Definition examples : list jsstring :=
  [lit "Pomodoro Timer App Explained";
   lit "How to build a SaaS landing page";
   lit "Practical applications of LangGraph";
   lit "https://github.com/google/generative-ai-docs"].

(** The text of the button of an example, line 211. *)
Definition example_label (ex : jsstring) : jsstring :=
  if includes ex (lit "github") then lit "GitHub Repo" else ex.

(** [setUserInput(text)], called by the text area and by the example
    buttons. *)
Definition setUserInput {engine : Engine} (text : jsstring) (st : State)
  : State :=
  mkState text (scriptData st) (audioUrl st)
    (isLoadingScript st) (isLoadingAudio st) (error st).

(** ** Words about the results of a generation *)

(** Two states show the same error, results and script-loading flag. *)
Definition same_results {engine : Engine} (s1 s2 : State) : Prop :=
  error s1 = error s2
  /\ scriptData s1 = scriptData s2
  /\ audioUrl s1 = audioUrl s2
  /\ isLoadingScript s1 = isLoadingScript s2.

(** The setter [u] is not the one of the script result. *)
Definition keeps_scriptData {engine : Engine} (u : update) : Prop :=
  match u with
  | setScriptData _ => False
  | _ => True
  end.

(** Every file of the selection is read. *)
Definition all_read (files : list File) : Prop :=
  Forall (fun file => exists text, read_as_text file = Ok text) files.

(** The texts of the files that are read, in order. *)
Fixpoint texts_of (files : list File) : list jsstring :=
  match files with
  | [] => []
  | file :: rest =>
      match read_as_text file with
      | Ok text => text :: texts_of rest
      | Throw _ => texts_of rest
      end
  end.

(** ** More sample inputs *)

(** A validation failure as a web framework reports it: [detail] is an
    array of objects. *)
Definition validation_failure_response : Response :=
  mkResponse false
    (Ok (JObject
           [(lit "detail",
             JArray [JObject [(lit "msg", JString (lit "field required"))]])])).

(** A success response whose body is the object [data]. *)
Definition success_response (data : json) : Response :=
  mkResponse true (Ok data).

(** A response whose body is not JSON. *)
Definition garbled_response (status_ok : bool) : Response :=
  mkResponse status_ok (Throw (Error (lit "Unexpected token < in JSON"))).

(** Three bubbles with distinct identifiers. *)
Definition bubble_a : Bubble := mkBubble 1%Z 10%Z 10%Z 12%Z.
Definition bubble_b : Bubble := mkBubble 2%Z 11%Z 10%Z 25%Z.
Definition bubble_c : Bubble := mkBubble 3%Z 12%Z 11%Z 18%Z.

(** A text without [github.com/] that holds sixty words. *)
Definition sixty_words : jsstring :=
  lit "intro" ++ List.concat (repeat (lit " w") 59).

(** * Properties *)

(** ** Strings *)

Example split_examples :
  split_whitespace (lit " a") = [lit ""; lit "a"]
  /\ split_whitespace (lit "a  b") = [lit "a"; lit "b"]
  /\ split_whitespace (lit "a ") = [lit "a"; lit ""]
  /\ split_whitespace (lit " ") = [lit ""; lit ""]
  /\ split_whitespace (lit "") = [lit ""].
Proof. repeat split; reflexivity. Qed.

Lemma jsstring_eqb_eq (a b : jsstring) : jsstring_eqb a b = true <-> a = b.
Proof.
  revert b; induction a as [|x a IH]; intros [|y b]; simpl;
    try (split; (reflexivity || discriminate)).
  rewrite andb_true_iff, N.eqb_eq, IH.
  split; [intros [-> ->]; reflexivity | intros H; injection H; auto].
Qed.

Lemma starts_with_spec (p s : jsstring) :
  starts_with p s = true <-> exists post, s = p ++ post.
Proof.
  revert s; induction p as [|x p IH]; intros s; simpl.
  - split; [intros _; exists s; reflexivity | reflexivity].
  - destruct s as [|y s].
    + split; [discriminate | intros [post H]; discriminate].
    + rewrite andb_true_iff, N.eqb_eq, IH. split.
      * intros [-> [post ->]]. exists post. reflexivity.
      * intros [post H]. injection H as -> ->. split; [reflexivity|].
        exists post. reflexivity.
Qed.

(** [includes] decides the presence of a substring. *)
Lemma includes_spec (s p : jsstring) :
  includes s p = true <-> contains_substring s p.
Proof.
  unfold contains_substring.
  induction s as [|c s IH].
  - simpl. rewrite orb_false_r, starts_with_spec. split.
    + intros [post H]. exists [], post. exact H.
    + intros [[|x pre] [post H]].
      * exists post. exact H.
      * discriminate.
  - cbn [includes]. rewrite orb_true_iff, starts_with_spec, IH. split.
    + intros [[post H] | [pre [post H]]].
      * exists [], post. exact H.
      * exists (c :: pre), post. rewrite H. reflexivity.
    + intros [[|x pre] [post H]].
      * left. exists post. exact H.
      * right. injection H as _ H. exists pre, post. exact H.
Qed.

(** The scan resumes after the whole run of whitespace: the greedy match
    of [\s+]. *)
Lemma split_loop_in_match (s : jsstring) :
  split_loop [] true s = split_loop [] false (drop_whitespace s).
Proof.
  induction s as [|c r IH]; simpl; [reflexivity|].
  destruct (is_whitespace c) eqn:Hc.
  - exact IH.
  - simpl. rewrite Hc. reflexivity.
Qed.

Lemma split_loop_separator (piece : jsstring) (c : code_unit) (r : jsstring) :
  is_whitespace c = true ->
  split_loop piece false (c :: r)
  = piece :: split_loop [] false (drop_whitespace r).
Proof.
  intros Hc. simpl. rewrite Hc, split_loop_in_match. reflexivity.
Qed.

(** The number of pieces, by the state of the scan. *)
Lemma split_loop_length (s : jsstring) (piece : jsstring) :
  List.length (split_loop piece true s)
  = count_tokens false s + Nat.b2n (ends_in_whitespace true s)
  /\ List.length (split_loop piece false s)
     = 1 + count_tokens true s + Nat.b2n (ends_in_whitespace false s).
Proof.
  revert piece; induction s as [|c r IH]; intros piece; simpl.
  - split; reflexivity.
  - destruct (is_whitespace c) eqn:Hc; simpl.
    + destruct (IH piece) as [IH1 _]. destruct (IH []) as [IH2 _].
      rewrite IH1, IH2. split; reflexivity.
    + destruct (IH (piece ++ [c])) as [_ IH2]. rewrite IH2.
      split; reflexivity.
Qed.

(** [split] yields one piece per token, and one empty piece more at each
    end of the string where there is whitespace. *)
Lemma split_whitespace_length (s : jsstring) :
  s <> [] ->
  List.length (split_whitespace s)
  = token_count s + Nat.b2n (leading_whitespace s)
    + Nat.b2n (trailing_whitespace s).
Proof.
  destruct s as [|c r]; [congruence | intros _].
  unfold split_whitespace, token_count, trailing_whitespace. simpl.
  destruct (is_whitespace c) eqn:Hc; simpl.
  - destruct (split_loop_length r []) as [H _]. rewrite H. lia.
  - destruct (split_loop_length r ([] ++ [c])) as [_ H].
    simpl in H. rewrite H. lia.
Qed.

(** Without whitespace at either end the pieces are the tokens. *)
Lemma split_whitespace_trimmed (s : jsstring) :
  s <> [] ->
  leading_whitespace s = false ->
  trailing_whitespace s = false ->
  List.length (split_whitespace s) = token_count s.
Proof.
  intros Hs Hl Ht. rewrite (split_whitespace_length Hs), Hl, Ht.
  simpl. lia.
Qed.

Section Properties.

Context {engine : Engine}.

(** ** Properties of every run, composed *)

Lemma task_forall_bind {A B : Type} P Q (t : task A) (f : A -> task B) :
  task_forall P Q t -> (forall a, task_forall P Q (f a)) ->
  task_forall P Q (bind t f).
Proof.
  intros Ht Hf. induction t as [a|e|u k IH|req k IH|k IH]; simpl in *;
    intuition auto.
Qed.

Lemma task_forall_try_catch {A : Type} P Q (t : task A)
  (handler : error_object -> task A) :
  task_forall P Q t -> (forall e, task_forall P Q (handler e)) ->
  task_forall P Q (try_catch t handler).
Proof.
  intros Ht Hh. induction t as [a|e|u k IH|req k IH|k IH]; simpl in *;
    intuition auto.
Qed.

Lemma task_forall_try_finally {A : Type} P Q (t : task A)
  (cleanup : task unit) :
  task_forall P Q t -> task_forall P Q cleanup ->
  task_forall P Q (try_finally t cleanup).
Proof.
  intros Ht Hc. induction t as [a|e|u k IH|req k IH|k IH]; simpl in *;
    try (apply task_forall_bind; simpl; auto); intuition auto.
Qed.

Lemma task_forall_of_result {A : Type} P Q (r : result A) :
  task_forall P Q (of_result r).
Proof. destruct r; exact I. Qed.

Lemma task_forall_set P Q (u : update) :
  P u -> task_forall P Q (set u).
Proof. intros H. split; [exact H | exact I]. Qed.

Lemma task_forall_await_json P Q (response : Response) :
  task_forall P Q (await_json response).
Proof. apply task_forall_of_result. Qed.

Lemma task_forall_await_fetch P Q (req : request) :
  Q req -> task_forall P Q (await_fetch req).
Proof. intros H. split; [exact H | intros r; apply task_forall_of_result]. Qed.

Lemma task_forall_throw_new_Error {A : Type} P Q (v : value) :
  task_forall P Q (@throw_new_Error _ A v).
Proof.
  unfold throw_new_Error. apply task_forall_bind.
  - apply task_forall_of_result.
  - intros msg. exact I.
Qed.

Lemma task_forall_if {A : Type} P Q (b : bool) (t t' : task A) :
  task_forall P Q t -> task_forall P Q t' ->
  task_forall P Q (if b then t else t').
Proof. destruct b; auto. Qed.

Ltac task_step :=
  lazymatch goal with
  | |- True => exact I
  | |- task_forall _ _ (if _ then _ else _) => apply task_forall_if
  | |- task_forall _ _ (bind _ _) => apply task_forall_bind; [|intros ?]
  | |- task_forall _ _ (try_finally _ _) => apply task_forall_try_finally
  | |- task_forall _ _ (try_catch _ _) => apply task_forall_try_catch; [|intros ?]
  | |- task_forall _ _ (set _) => apply task_forall_set
  | |- task_forall _ _ (await_fetch _) => apply task_forall_await_fetch
  | |- task_forall _ _ (await_json _) => apply task_forall_await_json
  | |- task_forall _ _ (throw_new_Error _) => apply task_forall_throw_new_Error
  | |- task_forall _ _ (of_result _) => apply task_forall_of_result
  | |- task_forall _ _ (Return _) => exact I
  | |- task_forall _ _ (Raise _) => exact I
  | |- task_forall _ _ (Await ?k) => change (Await k) with k at 0 || simpl
  end.

Ltac task_auto := repeat task_step.

Variable network : request -> result Response.

(** ** Running composed tasks *)

Lemma events_of_bind {A B : Type} (t : task A) (f : A -> task B) :
  events_of network (bind t f)
  = events_of network t
    ++ match settles network t with
       | Ok a => events_of network (f a)
       | Throw _ => []
       end.
Proof.
  induction t as [a|e|u k IH|req k IH|k IH]; simpl;
    try rewrite IH; auto using app_nil_r.
Qed.

Lemma settles_bind {A B : Type} (t : task A) (f : A -> task B) :
  settles network (bind t f)
  = match settles network t with
    | Ok a => settles network (f a)
    | Throw e => Throw e
    end.
Proof.
  induction t as [a|e|u k IH|req k IH|k IH]; simpl; auto.
Qed.

Lemma events_of_try_catch {A : Type} (t : task A)
  (handler : error_object -> task A) :
  events_of network (try_catch t handler)
  = events_of network t
    ++ match settles network t with
       | Ok _ => []
       | Throw e => events_of network (handler e)
       end.
Proof.
  induction t as [a|e|u k IH|req k IH|k IH]; simpl;
    try rewrite IH; auto.
Qed.

(** The [finally] block runs after the protected block, however that
    one ends. *)
Lemma events_of_try_finally {A : Type} (t : task A) (cleanup : task unit) :
  events_of network (try_finally t cleanup)
  = events_of network t ++ events_of network cleanup.
Proof.
  induction t as [a|e|u k IH|req k IH|k IH]; simpl; try rewrite IH; auto;
    rewrite events_of_bind; destruct (settles network cleanup);
    simpl; auto using app_nil_r.
Qed.

Lemma updates_app (evs evs' : list event) :
  updates (evs ++ evs') = updates evs ++ updates evs'.
Proof.
  induction evs as [|[u|req|] evs IH]; simpl; rewrite ?IH; reflexivity.
Qed.

Lemma requests_app (evs evs' : list event) :
  requests (evs ++ evs') = requests evs ++ requests evs'.
Proof.
  induction evs as [|[u|req|] evs IH]; simpl; rewrite ?IH; reflexivity.
Qed.

Lemma state_after_app (evs evs' : list event) (st : State) :
  state_after (evs ++ evs') st = state_after evs' (state_after evs st).
Proof.
  unfold state_after. rewrite updates_app. apply fold_left_app.
Qed.

(** ** What holds of every run *)

Lemma task_forall_events {A : Type} (P : update -> Prop)
  (Q : request -> Prop) (t : task A) :
  task_forall P Q t ->
  Forall P (updates (events_of network t))
  /\ Forall Q (requests (events_of network t)).
Proof.
  induction t as [a|e|u k IH|req k IH|k IH]; simpl; intros H.
  - split; constructor.
  - split; constructor.
  - destruct H as [Hu Hk]. destruct (IH Hk). split; auto.
  - destruct H as [Hq Hk]. destruct (IH _ (Hk (network req))).
    split; auto.
  - auto.
Qed.

(** [handleGenerateScript] issues its request and no other, and never
    calls the setter of the audio-loading flag. *)
Lemma handleGenerateScript_forall (sourceType content : jsstring) :
  task_forall keeps_isLoadingAudio
    (fun req => req = script_request sourceType content)
    (handleGenerateScript sourceType content).
Proof.
  unfold handleGenerateScript, try_catch_finally.
  task_auto; solve [exact I | reflexivity].
Qed.


(** ** The script-generation request *)

Lemma no_fetch_requests {A : Type} (t : task A) :
  no_fetch t -> requests (events_of network t) = [].
Proof.
  intros H. apply task_forall_events in H as [_ H].
  destruct (requests (events_of network t)); [reflexivity|].
  inversion H as [|? ? []].
Qed.

(** [handleGenerateScript] issues exactly one request. *)
Lemma handleGenerateScript_requests (sourceType content : jsstring) :
  requests (events_of network (handleGenerateScript sourceType content))
  = [script_request sourceType content].
Proof.
  unfold handleGenerateScript, try_catch_finally. simpl. f_equal.
  apply no_fetch_requests. unfold no_fetch. task_auto.
Qed.

Lemma truthy_string (s : jsstring) :
  truthy (Some (JString s)) = true <-> s <> [].
Proof.
  simpl. destruct s; simpl; split; congruence.
Qed.

(** On a non-empty input [handleSubmitFromText] is the script generation
    for the classified input. *)
Lemma handleSubmitFromText_nonempty (st : State) :
  userInput st <> [] ->
  handleSubmitFromText st
  = handleGenerateScript (classify (userInput st)) (userInput st).
Proof.
  intros H. unfold handleSubmitFromText.
  apply truthy_string in H. rewrite H. reflexivity.
Qed.

(** C1 (as amended).  For a non-empty input without the substring
    [github.com/], the request of [handleSubmitFromText] has the source
    type [script] exactly when the number of pieces [split(/\s+/)] cuts
    the input into exceeds 50, and [topic] otherwise; that number is the
    count of whitespace-delimited tokens, plus one when the input starts
    with whitespace and plus one when it ends with whitespace. *)
Theorem submit_text_source_type_by_pieces (st : State) :
  userInput st <> [] ->
  ~ contains_substring (userInput st) (lit "github.com/") ->
  requests (events_of network (handleSubmitFromText st))
  = [script_request
       (if 50 <? token_count (userInput st)
                 + Nat.b2n (leading_whitespace (userInput st))
                 + Nat.b2n (trailing_whitespace (userInput st))
        then lit "script" else lit "topic")
       (userInput st)].
Proof.
  intros Hne Hgh.
  rewrite (handleSubmitFromText_nonempty _ Hne), handleGenerateScript_requests.
  unfold classify.
  destruct (includes (userInput st) (lit "github.com/")) eqn:Hinc.
  - apply includes_spec in Hinc. contradiction.
  - rewrite (split_whitespace_length Hne). reflexivity.
Qed.

(** C2.  An input with the substring [github.com/] is sent with the source
    type [github], whatever its number of tokens. *)
Theorem submit_text_github (st : State) :
  contains_substring (userInput st) (lit "github.com/") ->
  requests (events_of network (handleSubmitFromText st))
  = [script_request (lit "github") (userInput st)].
Proof.
  intros Hgh.
  assert (Hne : userInput st <> []).
  { destruct Hgh as [pre [post H]]. rewrite H.
    destruct pre; discriminate. }
  rewrite (handleSubmitFromText_nonempty _ Hne), handleGenerateScript_requests.
  unfold classify. apply includes_spec in Hgh. rewrite Hgh. reflexivity.
Qed.

(** C3.  Up to its first suspension [handleGenerateScript] clears the
    error, the script result and the audio result, sets the script-loading
    flag, and only then issues its request: when the request is issued no
    earlier error or result is left and the flag is set. *)
Theorem generate_script_clears_on_entry (sourceType content : jsstring)
  (st : State) :
  let evs :=
    before_suspension
      (events_of network (handleGenerateScript sourceType content)) in
  evs = [Performed (setError None); Performed (setScriptData JNull);
         Performed (setAudioUrl None); Performed (setIsLoadingScript true);
         Issued (script_request sourceType content)]
  /\ error (state_after evs st) = None
  /\ scriptData (state_after evs st) = JNull
  /\ audioUrl (state_after evs st) = None
  /\ isLoadingScript (state_after evs st) = true.
Proof.
  simpl. repeat split.
Qed.

(** ** The guard of [handleGenerateAudio] *)

Lemma handleGenerateAudio_present (st : State) (script : json) :
  script_present st script -> handleGenerateAudio st = audio_attempt st.
Proof.
  intros [Hget Htruthy]. unfold handleGenerateAudio.
  destruct (scriptData st) eqn:Hdata; simpl in Hget; try discriminate.
  injection Hget as Hget. simpl. rewrite Hget, Htruthy. reflexivity.
Qed.

Lemma handleGenerateAudio_absent (st : State) :
  script_absent st -> handleGenerateAudio st = no_script_error.
Proof.
  intros [H | [script [Hget Hfalsy]]]; unfold handleGenerateAudio.
  - rewrite H. reflexivity.
  - destruct (truthy (Some (scriptData st))); [|reflexivity].
    rewrite Hget. simpl. rewrite Hfalsy. reflexivity.
Qed.

Lemma script_present_or_absent (st : State) :
  script_absent st \/ exists script, script_present st script.
Proof.
  unfold script_absent, script_present.
  destruct (scriptData st) as [|b|n|s|l|members] eqn:Hdata;
    try (left; right; exists None; split; reflexivity).
  - left; left; reflexivity.
  - simpl. destruct (own_property members (lit "script")) as [script|] eqn:Hp.
    + destruct (truthy (Some script)) eqn:Ht.
      * right. exists script. split; reflexivity || assumption.
      * left. right. exists (Some script). split; reflexivity || assumption.
    + left. right. exists None. split; reflexivity.
Qed.

(** [handleGenerateAudio] never calls the setter of the script-loading
    flag. *)
Lemma handleGenerateAudio_forall (st : State) :
  task_forall keeps_isLoadingScript (fun _ => True) (handleGenerateAudio st).
Proof.
  unfold handleGenerateAudio, no_script_error, audio_attempt,
    try_catch_finally.
  task_auto; exact I.
Qed.

(** ** Setter calls and the state *)

Lemma state_after_last (evs : list event) (u : update) (st : State) :
  state_after (evs ++ [Performed u]) st = apply_update u (state_after evs st).
Proof. rewrite state_after_app. reflexivity. Qed.

(** A cell that none of the setter calls made writes keeps its value. *)
Lemma state_after_keeps {B : Type} (P : update -> Prop) (cell : State -> B)
  (evs : list event) (st : State) :
  (forall u s, P u -> cell (apply_update u s) = cell s) ->
  Forall P (updates evs) ->
  cell (state_after evs st) = cell st.
Proof.
  intros Hcell. unfold state_after. revert st.
  induction (updates evs) as [|u us IH]; intros st Hall; simpl.
  - reflexivity.
  - inversion Hall; subst. rewrite IH by assumption. auto.
Qed.

Lemma keeps_isLoadingAudio_cell (u : update) (s : State) :
  keeps_isLoadingAudio u ->
  isLoadingAudio (apply_update u s) = isLoadingAudio s.
Proof. destruct u; simpl; intros H; reflexivity || contradiction. Qed.

Lemma keeps_isLoadingScript_cell (u : update) (s : State) :
  keeps_isLoadingScript u ->
  isLoadingScript (apply_update u s) = isLoadingScript s.
Proof. destruct u; simpl; intros H; reflexivity || contradiction. Qed.

(** The last event of a script generation is the reset of its flag. *)
Lemma handleGenerateScript_ends (sourceType content : jsstring) :
  exists evs,
    events_of network (handleGenerateScript sourceType content)
    = evs ++ [Performed (setIsLoadingScript false)].
Proof.
  unfold handleGenerateScript, try_catch_finally.
  cbn [bind set events_of]. rewrite events_of_try_finally.
  eexists. cbn [set events_of]. rewrite !app_comm_cons. reflexivity.
Qed.

(** The last event of an audio generation is the reset of its flag. *)
Lemma audio_attempt_ends (st : State) :
  exists evs,
    events_of network (audio_attempt st)
    = evs ++ [Performed (setIsLoadingAudio false)].
Proof.
  unfold audio_attempt, try_catch_finally.
  cbn [bind set events_of]. rewrite events_of_try_finally.
  eexists. cbn [set events_of]. rewrite !app_comm_cons. reflexivity.
Qed.

(** C9.  The last event of a script generation is the reset of its
    loading flag, which is false when the attempt has run; it makes no
    call of the setter of the audio-loading flag, whose value is as
    before.  When an audio generation that issued a request has run, its
    last event is the reset of its loading flag, which is then false; no
    run of [handleGenerateAudio] calls the setter of the script-loading
    flag, whose value is as before. *)
Theorem loading_flags_after_attempt :
  (forall (sourceType content : jsstring) (st : State),
     let evs := events_of network (handleGenerateScript sourceType content) in
     (exists pre, evs = pre ++ [Performed (setIsLoadingScript false)])
     /\ isLoadingScript (state_after evs st) = false
     /\ Forall keeps_isLoadingAudio (updates evs)
     /\ isLoadingAudio (state_after evs st) = isLoadingAudio st)
  /\ (forall st : State,
        let evs := events_of network (handleGenerateAudio st) in
        (requests evs <> [] ->
         (exists pre, evs = pre ++ [Performed (setIsLoadingAudio false)])
         /\ isLoadingAudio (state_after evs st) = false)
        /\ Forall keeps_isLoadingScript (updates evs)
        /\ isLoadingScript (state_after evs st) = isLoadingScript st).
Proof.
  split.
  - intros sourceType content st evs.
    assert (Hall : Forall keeps_isLoadingAudio (updates evs)).
    { apply (task_forall_events _ _ _ (handleGenerateScript_forall _ _)). }
    destruct (handleGenerateScript_ends sourceType content) as [pre Hpre].
    split; [|split; [|split]].
    + exists pre. exact Hpre.
    + subst evs. rewrite Hpre, state_after_last. reflexivity.
    + exact Hall.
    + apply (state_after_keeps (P := keeps_isLoadingAudio));
        [apply keeps_isLoadingAudio_cell | exact Hall].
  - intros st evs.
    assert (Hall : Forall keeps_isLoadingScript (updates evs)).
    { apply (task_forall_events _ _ _ (handleGenerateAudio_forall _)). }
    split; [|split].
    + subst evs.
      destruct (script_present_or_absent st) as [Habs | [script Hp]].
      * rewrite (handleGenerateAudio_absent Habs). simpl. congruence.
      * intros _. rewrite (handleGenerateAudio_present Hp).
        destruct (audio_attempt_ends st) as [pre Hpre].
        split; [exists pre; exact Hpre|].
        rewrite Hpre, state_after_last. reflexivity.
    + exact Hall.
    + apply (state_after_keeps (P := keeps_isLoadingScript));
        [apply keeps_isLoadingScript_cell | exact Hall].
Qed.

(** ** Failed attempts *)

(** C4 (as amended).  When a generation attempt fails, the error shown is:
    the message of the exception on a transport failure or when the body
    of a non-success response cannot be read as JSON; the [detail] of the
    body when it is a JSON object whose [detail] is a non-empty string;
    the generic message of the operation when the body is a JSON value
    other than [null] whose [detail] is missing or falsy.  In each case
    the result of the operation stays absent. *)
Theorem failed_attempt_error_message :
  (forall (sourceType content : jsstring) (st : State) (msg : jsstring),
     failure (lit "Failed to generate script.")
       (network (script_request sourceType content)) msg ->
     let st' :=
       state_after
         (events_of network (handleGenerateScript sourceType content)) st in
     error st' = Some msg /\ scriptData st' = JNull)
  /\ (forall (st : State) (script : json) (msg : jsstring),
        script_present st script ->
        failure (lit "Failed to generate audio.")
          (network (audio_request (Some script))) msg ->
        let st' := state_after (events_of network (handleGenerateAudio st)) st in
        error st' = Some msg /\ audioUrl st' = None).
Proof.
  split.
  - intros sourceType content st msg Hfail.
    unfold handleGenerateScript, try_catch_finally. simpl.
    inversion Hfail as [e He | response e Hok Hbody He
                       | response members detail Hok Hbody Hdetail Hne He
                       | response errData detail Hok Hbody Hdetail Hfalsy He];
      subst; simpl; rewrite ?Hok; simpl; rewrite ?Hbody; simpl.
    + split; reflexivity.
    + split; reflexivity.
    + rewrite Hdetail. unfold or_else.
      apply truthy_string in Hne. rewrite Hne. simpl. split; reflexivity.
    + rewrite Hdetail. simpl. unfold or_else. rewrite Hfalsy. simpl.
      split; reflexivity.
  - intros st script msg Hp Hfail.
    rewrite (handleGenerateAudio_present Hp). destruct Hp as [Hget _].
    unfold audio_attempt, try_catch_finally. simpl. rewrite Hget. simpl.
    inversion Hfail as [e He | response e Hok Hbody He
                       | response members detail Hok Hbody Hdetail Hne He
                       | response errData detail Hok Hbody Hdetail Hfalsy He];
      subst; simpl; rewrite ?Hok; simpl; rewrite ?Hbody; simpl.
    + split; reflexivity.
    + split; reflexivity.
    + rewrite Hdetail. unfold or_else.
      apply truthy_string in Hne. rewrite Hne. simpl. split; reflexivity.
    + rewrite Hdetail. simpl. unfold or_else. rewrite Hfalsy. simpl.
      split; reflexivity.
Qed.

(** ** Validation *)

(** C7.  Submitting the empty text, selecting no file, and asking for
    audio without a script each set the error message without an
    intervening suspension and issue no request. *)
Theorem validation_errors_issue_no_request :
  (forall st : State,
     userInput st = [] ->
     let evs := events_of network (handleSubmitFromText st) in
     requests evs = [] /\ ~ In Suspended evs
     /\ error (state_after evs st)
        = Some (lit "Please provide input in the text area."))
  /\ (forall (files : option (list File)) (st : State),
        files = None \/ files = Some [] ->
        let evs := events_of network (handleFileChange files) in
        requests evs = [] /\ ~ In Suspended evs
        /\ error (state_after evs st)
           = Some (lit "Please upload at least one file."))
  /\ (forall st : State,
        script_absent st ->
        let evs := events_of network (handleGenerateAudio st) in
        requests evs = [] /\ ~ In Suspended evs
        /\ error (state_after evs st)
           = Some (lit "No script available to generate audio from.")).
Proof.
  split; [|split].
  - intros st Hempty. unfold handleSubmitFromText. rewrite Hempty. simpl.
    repeat split. intros [H|[]]. discriminate.
  - intros files st [-> | ->]; simpl; repeat split;
      intros [H|[]]; discriminate.
  - intros st Habs. rewrite (handleGenerateAudio_absent Habs). simpl.
    repeat split. intros [H|[]]. discriminate.
Qed.

(** C10.  When no script is present, the one setter call of
    [handleGenerateAudio] is the one of the error message: the script
    result, the audio result, both loading flags and the input keep their
    values. *)
Theorem generate_audio_without_script_frame (st : State) :
  script_absent st ->
  let evs := events_of network (handleGenerateAudio st) in
  updates evs
  = [setError (Some (lit "No script available to generate audio from."))]
  /\ state_after evs st
     = mkState (userInput st) (scriptData st) (audioUrl st)
         (isLoadingScript st) (isLoadingAudio st)
         (Some (lit "No script available to generate audio from.")).
Proof.
  intros Habs. rewrite (handleGenerateAudio_absent Habs).
  split; reflexivity.
Qed.

(** ** Audio generation *)

(** [handleGenerateAudio] with a script issues exactly one request. *)
Lemma audio_attempt_requests (st : State) (script : json) :
  script_present st script ->
  requests (events_of network (audio_attempt st))
  = [audio_request (Some script)].
Proof.
  intros [Hget _]. unfold audio_attempt, try_catch_finally.
  rewrite Hget. simpl. f_equal.
  apply no_fetch_requests. unfold no_fetch. task_auto.
Qed.

(** C8.  With a script present, [handleGenerateAudio] issues one request
    whose body has the single member [script], the script of the current
    result; when the response is a success whose body has the string
    [audio_url], the audio result becomes the base address followed by
    that path. *)
Theorem generate_audio_request_and_result (st : State) (script : json) :
  script_present st script ->
  let evs := events_of network (handleGenerateAudio st) in
  requests evs = [audio_request (Some script)]
  /\ body (audio_request (Some script)) = JObject [(lit "script", script)]
  /\ forall (response : Response) (data : json) (path : jsstring),
       network (audio_request (Some script)) = Ok response ->
       ok response = true ->
       json_body response = Ok data ->
       get_property data (lit "audio_url") = Ok (Some (JString path)) ->
       audioUrl (state_after evs st) = Some (API_BASE_URL ++ path).
Proof.
  intros Hp. rewrite (handleGenerateAudio_present Hp).
  split; [|split].
  - apply (audio_attempt_requests Hp).
  - reflexivity.
  - intros response data path Hnet Hok Hbody Hurl.
    destruct Hp as [Hget _].
    unfold audio_attempt, try_catch_finally. rewrite Hget. simpl.
    rewrite Hnet. simpl. rewrite Hok. simpl. rewrite Hbody. simpl.
    rewrite Hurl. reflexivity.
Qed.

(** ** File aggregation *)

Lemma promise_all_file_content (files : list File) (texts : list jsstring) :
  map read_as_text files = map Ok texts ->
  promise_all (map file_content files)
  = Ok (map (fun nt => file_section (fst nt) (snd nt))
          (combine (map name files) texts)).
Proof.
  revert texts; induction files as [|file files IH]; intros [|text texts] H;
    try discriminate; simpl.
  - reflexivity.
  - injection H as Hread Hrest. unfold file_content at 1. rewrite Hread.
    rewrite (IH _ Hrest). reflexivity.
Qed.

Lemma join_file_sections (sections : list (jsstring * jsstring)) :
  join (newline ++ newline)
    (map (fun nt => file_section (fst nt) (snd nt)) sections)
  = combined_payload sections.
Proof.
  induction sections as [|[file_name text] rest IH]; [reflexivity|].
  destruct rest as [|next rest]; [reflexivity|].
  change (file_section file_name text ++ (newline ++ newline)
          ++ join (newline ++ newline)
               (map (fun nt => file_section (fst nt) (snd nt)) (next :: rest))
          = file_section file_name text ++ newline ++ newline
            ++ combined_payload (next :: rest)).
  rewrite IH, <- app_assoc. reflexivity.
Qed.

(** C6.  For a non-empty selection of files that are all read, the one
    request of [handleFileChange] has the source type [file] and, as its
    content, the sections of the files in the order of the selection,
    each made of the header line and the text of the file, with one blank
    line between consecutive sections. *)
Theorem file_aggregation_payload (files : list File) (texts : list jsstring) :
  files <> [] ->
  map read_as_text files = map Ok texts ->
  requests (events_of network (handleFileChange (Some files)))
  = [script_request (lit "file")
       (combined_payload (combine (map name files) texts))].
Proof.
  intros Hne Hread. destruct files as [|file files]; [congruence|].
  unfold handleFileChange, await_all.
  rewrite (promise_all_file_content _ _ Hread).
  cbn [bind of_result events_of requests].
  rewrite join_file_sections. apply handleGenerateScript_requests.
Qed.

(** ** A failed file read *)

Lemma promise_all_rejects (files : list File) :
  Exists (fun file => exists e, read_as_text file = Throw e) files ->
  exists e, promise_all (map file_content files) = Throw e.
Proof.
  induction 1 as [file files [e He] | file files _ [e IH]]; simpl.
  - unfold file_content. rewrite He. exists e. reflexivity.
  - unfold file_content at 1. destruct (read_as_text file) as [text|e'].
    + rewrite IH. exists e. reflexivity.
    + exists e'. reflexivity.
Qed.

(** One failed read aborts the aggregation: no setter is called, no
    request is issued, and the promise of the handler is rejected. *)
Lemma read_failure_aborts_aggregation (files : list File) :
  Exists (fun file => exists e, read_as_text file = Throw e) files ->
  events_of network (handleFileChange (Some files)) = [Suspended]
  /\ exists e, settles network (handleFileChange (Some files)) = Throw e.
Proof.
  intros Hfail. destruct (promise_all_rejects Hfail) as [e He].
  destruct files as [|file files]; [inversion Hfail|].
  unfold handleFileChange, await_all. rewrite He. simpl.
  split; [reflexivity | exists e; reflexivity].
Qed.

(** C5.  At a selection whose second file cannot be read,
    [handleFileChange] issues no request and calls no setter: the state,
    and with it the error message, is left as it was, and the failure
    ends as the rejection of the promise of the handler. *)
Theorem file_read_failure_unreported (st : State) :
  let evs := events_of network (handleFileChange (Some unreadable_selection)) in
  requests evs = []
  /\ updates evs = []
  /\ state_after evs st = st
  /\ settles network (handleFileChange (Some unreadable_selection))
     = Throw (Error (lit "NotReadableError")).
Proof.
  simpl. repeat split.
Qed.

End Properties.

(** * The properties at sample inputs *)

(** C1, the claim as stated fails: a space followed by fifty words holds
    fifty tokens, not more, and is sent as a [script]. *)
Lemma leading_space_fifty_tokens_is_script :
  fifty_words_after_space <> []
  /\ ~ contains_substring fifty_words_after_space (lit "github.com/")
  /\ token_count fifty_words_after_space = 50
  /\ requests (events_of offline
                 (handleSubmitFromText (typed fifty_words_after_space)))
     = [script_request (lit "script") fifty_words_after_space]
  /\ script_request (lit "script") fifty_words_after_space
     <> script_request (lit "topic") fifty_words_after_space.
Proof.
  split; [discriminate|].
  split; [rewrite <- includes_spec; vm_compute; discriminate|].
  split; [reflexivity|].
  split; [vm_compute; reflexivity | vm_compute; discriminate].
Qed.

Lemma submit_text_source_type_by_pieces_witness :
  userInput (typed fifty_words_after_space) <> []
  /\ ~ contains_substring (userInput (typed fifty_words_after_space))
         (lit "github.com/")
  /\ requests (events_of offline
                 (handleSubmitFromText (typed fifty_words_after_space)))
     = [script_request (lit "script") fifty_words_after_space].
Proof.
  assert (Hne : userInput (typed fifty_words_after_space) <> [])
    by discriminate.
  assert (Hgh : ~ contains_substring (userInput (typed fifty_words_after_space))
                    (lit "github.com/")).
  { intros H. apply includes_spec in H. vm_compute in H. discriminate. }
  split; [exact Hne|]. split; [exact Hgh|].
  exact (submit_text_source_type_by_pieces offline
           (typed fifty_words_after_space) Hne Hgh).
Defined.

Lemma submit_text_github_witness :
  contains_substring (userInput (typed long_github_input)) (lit "github.com/")
  /\ 50 < token_count long_github_input
  /\ requests (events_of offline (handleSubmitFromText (typed long_github_input)))
     = [script_request (lit "github") long_github_input].
Proof.
  assert (Hgh : contains_substring (userInput (typed long_github_input))
                  (lit "github.com/")).
  { exists (lit "https://"),
      (lit "google/generative-ai-docs" ++ List.concat (repeat (lit " w") 60)).
    reflexivity. }
  split; [exact Hgh|]. split; [vm_compute; lia|].
  exact (submit_text_github offline (typed long_github_input) Hgh).
Defined.

(** C4, the claim as stated fails: when the backend cannot be reached no
    body supplies a [detail], and the error shown is the message of the
    rejection of [fetch], not the generic message. *)
Lemma transport_failure_shows_its_own_message :
  let st' :=
    state_after
      (events_of offline
         (handleGenerateScript (lit "topic")
            (lit "Pomodoro Timer App Explained")))
      initial_state in
  error st' = Some (lit "Failed to fetch")
  /\ error st' <> Some (lit "Failed to generate script.").
Proof.
  split; [reflexivity | vm_compute; discriminate].
Qed.

Lemma failed_attempt_error_message_witness :
  (failure (lit "Failed to generate script.")
     (answers (failure_response (lit "bad topic"))
        (script_request (lit "topic") (lit "Pomodoro Timer App Explained")))
     (lit "bad topic")
   /\ let st' :=
        state_after
          (events_of (answers (failure_response (lit "bad topic")))
             (handleGenerateScript (lit "topic")
                (lit "Pomodoro Timer App Explained")))
          initial_state in
      error st' = Some (lit "bad topic") /\ scriptData st' = JNull)
  /\ (script_present with_script (JString (lit "Hello and welcome."))
      /\ failure (lit "Failed to generate audio.")
           (offline (audio_request (Some (JString (lit "Hello and welcome.")))))
           (lit "Failed to fetch")
      /\ let st' :=
           state_after (events_of offline (handleGenerateAudio with_script))
             with_script in
         error st' = Some (lit "Failed to fetch") /\ audioUrl st' = None).
Proof.
  assert (Hscript :
    failure (lit "Failed to generate script.")
      (answers (failure_response (lit "bad topic"))
         (script_request (lit "topic") (lit "Pomodoro Timer App Explained")))
      (lit "bad topic")).
  { apply server_detail
      with (members := [(lit "detail", JString (lit "bad topic"))]);
      [reflexivity | reflexivity | reflexivity | discriminate]. }
  assert (Hpresent :
    script_present with_script (JString (lit "Hello and welcome."))).
  { split; reflexivity. }
  assert (Haudio :
    failure (lit "Failed to generate audio.")
      (offline (audio_request (Some (JString (lit "Hello and welcome.")))))
      (lit "Failed to fetch")).
  { exact (transport_failure (lit "Failed to generate audio.")
             (Error (lit "Failed to fetch"))). }
  split.
  - split; [exact Hscript|].
    exact (proj1 (failed_attempt_error_message
                    (answers (failure_response (lit "bad topic"))))
             (lit "topic") (lit "Pomodoro Timer App Explained")
             initial_state (lit "bad topic") Hscript).
  - split; [exact Hpresent|]. split; [exact Haudio|].
    exact (proj2 (failed_attempt_error_message offline)
             with_script (JString (lit "Hello and welcome."))
             (lit "Failed to fetch") Hpresent Haudio).
Defined.

Lemma file_aggregation_payload_witness :
  readable_selection <> []
  /\ map read_as_text readable_selection
     = map Ok [lit "hello"; lit "world"]
  /\ requests (events_of offline (handleFileChange (Some readable_selection)))
     = [script_request (lit "file")
          (lit "--- CONTENT FROM a.txt ---" ++ newline ++ lit "hello"
           ++ newline ++ newline
           ++ lit "--- CONTENT FROM b.txt ---" ++ newline ++ lit "world")].
Proof.
  assert (Hne : readable_selection <> []) by discriminate.
  assert (Hread : map read_as_text readable_selection
                  = map Ok [lit "hello"; lit "world"]) by reflexivity.
  split; [exact Hne|]. split; [exact Hread|].
  exact (file_aggregation_payload offline [lit "hello"; lit "world"] Hne Hread).
Defined.

Lemma validation_errors_issue_no_request_witness :
  (userInput initial_state = []
   /\ requests (events_of offline (handleSubmitFromText initial_state)) = []
   /\ error (state_after (events_of offline (handleSubmitFromText initial_state))
               initial_state)
      = Some (lit "Please provide input in the text area."))
  /\ (requests (events_of offline (handleFileChange (Some []))) = []
      /\ error (state_after (events_of offline (handleFileChange (Some [])))
                  initial_state)
         = Some (lit "Please upload at least one file."))
  /\ (script_absent initial_state
      /\ requests (events_of offline (handleGenerateAudio initial_state)) = []
      /\ error (state_after (events_of offline (handleGenerateAudio initial_state))
                  initial_state)
         = Some (lit "No script available to generate audio from.")).
Proof.
  assert (Habsent : script_absent initial_state) by (left; reflexivity).
  destruct (validation_errors_issue_no_request offline)
    as [Htext [Hfiles Haudio]].
  split; [|split].
  - split; [reflexivity|].
    destruct (Htext initial_state eq_refl) as [Hreq [_ Herr]].
    split; [exact Hreq | exact Herr].
  - destruct (Hfiles (Some []) initial_state (or_intror eq_refl))
      as [Hreq [_ Herr]].
    split; [exact Hreq | exact Herr].
  - split; [exact Habsent|].
    destruct (Haudio initial_state Habsent) as [Hreq [_ Herr]].
    split; [exact Hreq | exact Herr].
Defined.

Lemma generate_audio_request_and_result_witness :
  script_present with_script (JString (lit "Hello and welcome."))
  /\ requests (events_of (answers (audio_response (lit "/audio/x.wav")))
                 (handleGenerateAudio with_script))
     = [audio_request (Some (JString (lit "Hello and welcome.")))]
  /\ audioUrl
       (state_after
          (events_of (answers (audio_response (lit "/audio/x.wav")))
             (handleGenerateAudio with_script))
          with_script)
     = Some (lit "http://127.0.0.1:8000/audio/x.wav").
Proof.
  assert (Hpresent :
    script_present with_script (JString (lit "Hello and welcome."))).
  { split; reflexivity. }
  destruct (generate_audio_request_and_result
              (answers (audio_response (lit "/audio/x.wav"))) Hpresent)
    as [Hreq [_ Hurl]].
  split; [exact Hpresent|]. split; [exact Hreq|].
  exact (Hurl (audio_response (lit "/audio/x.wav"))
           (JObject [(lit "audio_url", JString (lit "/audio/x.wav"))])
           (lit "/audio/x.wav") eq_refl eq_refl eq_refl eq_refl).
Defined.

Lemma loading_flags_after_attempt_witness :
  requests (events_of offline (handleGenerateAudio with_script)) <> []
  /\ isLoadingAudio
       (state_after (events_of offline (handleGenerateAudio with_script))
          with_script) = false
  /\ isLoadingScript
       (state_after
          (events_of offline
             (handleGenerateScript (lit "topic")
                (lit "Pomodoro Timer App Explained")))
          with_script) = false.
Proof.
  assert (Hreq : requests (events_of offline (handleGenerateAudio with_script))
                 <> []) by (vm_compute; discriminate).
  destruct (loading_flags_after_attempt offline) as [Hscript Haudio].
  split; [exact Hreq|]. split.
  - exact (proj2 (proj1 (Haudio with_script) Hreq)).
  - exact (proj1 (proj2 (Hscript (lit "topic")
                           (lit "Pomodoro Timer App Explained")
                           with_script))).
Defined.

Lemma generate_audio_without_script_frame_witness :
  script_absent with_audio_only
  /\ audioUrl
       (state_after (events_of offline (handleGenerateAudio with_audio_only))
          with_audio_only)
     = Some (API_BASE_URL ++ lit "/audio/old.wav")
  /\ error
       (state_after (events_of offline (handleGenerateAudio with_audio_only))
          with_audio_only)
     = Some (lit "No script available to generate audio from.").
Proof.
  assert (Habsent : script_absent with_audio_only) by (left; reflexivity).
  destruct (generate_audio_without_script_frame offline Habsent) as [_ Hst].
  split; [exact Habsent|].
  rewrite Hst. split; reflexivity.
Defined.

(** * Further properties of the handlers *)

Section Outcomes.

Context {engine : Engine}.

Variable network : request -> result Response.

(** ** How a handler settles *)

Lemma settles_try_catch {A : Type} (t : task A)
  (handler : error_object -> task A) :
  settles network (try_catch t handler)
  = match settles network t with
    | Ok a => Ok a
    | Throw e => settles network (handler e)
    end.
Proof.
  induction t as [a|e|u k IH|req k IH|k IH]; simpl; auto.
Qed.

Lemma settles_try_finally {A : Type} (t : task A) (cleanup : task unit) :
  settles network (try_finally t cleanup)
  = match settles network cleanup with
    | Ok _ => settles network t
    | Throw e => Throw e
    end.
Proof.
  induction t as [a|e|u k IH|req k IH|k IH]; simpl; auto;
    rewrite settles_bind; destruct (settles network cleanup); reflexivity.
Qed.

(** A block whose [catch] and [finally] only call a setter never lets an
    exception out. *)
Lemma settles_try_catch_finally_set (t : task unit)
  (on_error : error_object -> update) (u : update) :
  settles network
    (try_catch_finally t (fun err => set (on_error err)) (set u))
  = Ok tt.
Proof.
  unfold try_catch_finally. rewrite settles_try_finally, settles_try_catch.
  simpl. destruct (settles network t) as [[]|e]; reflexivity.
Qed.

Lemma handleGenerateScript_settles (sourceType content : jsstring) :
  settles network (handleGenerateScript sourceType content) = Ok tt.
Proof.
  unfold handleGenerateScript. cbn [bind set settles].
  apply settles_try_catch_finally_set.
Qed.

Lemma audio_attempt_settles (st : State) :
  settles network (audio_attempt st) = Ok tt.
Proof.
  unfold audio_attempt. cbn [bind set settles].
  apply settles_try_catch_finally_set.
Qed.

(** X1.  Script generation makes one attempt: whatever the answer of the
    backend, [handleGenerateScript] issues exactly one request and its
    promise is fulfilled, never rejected. *)
Theorem generate_script_one_attempt (sourceType content : jsstring) :
  requests (events_of network (handleGenerateScript sourceType content))
  = [script_request sourceType content]
  /\ settles network (handleGenerateScript sourceType content) = Ok tt.
Proof.
  split.
  - apply handleGenerateScript_requests.
  - apply handleGenerateScript_settles.
Qed.

(** X2.  [handleGenerateAudio] issues a request exactly when a script is
    present, in which case it issues exactly one; its promise is fulfilled
    on every path. *)
Theorem generate_audio_one_attempt (st : State) :
  (requests (events_of network (handleGenerateAudio st)) <> []
   <-> exists script, script_present st script)
  /\ (forall script, script_present st script ->
        requests (events_of network (handleGenerateAudio st))
        = [audio_request (Some script)])
  /\ settles network (handleGenerateAudio st) = Ok tt.
Proof.
  destruct (script_present_or_absent st) as [Habs | [script Hp]].
  - assert (Hnone : forall script, ~ script_present st script).
    { intros script [Hget Htruthy].
      destruct Habs as [Hdata | [v [Hget' Hfalsy]]].
      - destruct (scriptData st); simpl in *; discriminate.
      - rewrite Hget in Hget'. injection Hget' as <-. congruence. }
    rewrite (handleGenerateAudio_absent Habs). simpl.
    split; [|split].
    + split; [congruence | intros [script Hp]; destruct (Hnone _ Hp)].
    + intros script Hp. destruct (Hnone _ Hp).
    + reflexivity.
  - rewrite (handleGenerateAudio_present Hp).
    rewrite (audio_attempt_requests network Hp).
    split; [|split].
    + split; [intros _; exists script; exact Hp | discriminate].
    + intros script' [Hget' _]. destruct Hp as [Hget _].
      rewrite Hget in Hget'. injection Hget' as <-. reflexivity.
    + apply audio_attempt_settles.
Qed.

(** X3.  Up to its first suspension an audio generation clears the error
    and the audio result, sets the audio-loading flag and then issues its
    request; the script result is not touched. *)
Theorem generate_audio_clears_on_entry (st : State) (script : json) :
  script_present st script ->
  let evs := before_suspension (events_of network (handleGenerateAudio st)) in
  evs = [Performed (setError None); Performed (setAudioUrl None);
         Performed (setIsLoadingAudio true);
         Issued (audio_request (Some script))]
  /\ state_after evs st
     = mkState (userInput st) (scriptData st) None
         (isLoadingScript st) true None.
Proof.
  intros Hp. rewrite (handleGenerateAudio_present Hp).
  destruct Hp as [Hget _].
  unfold audio_attempt, try_catch_finally. rewrite Hget.
  split; reflexivity.
Qed.

(** [handleGenerateAudio] never calls the setter of the script result. *)
Lemma handleGenerateAudio_keeps_scriptData (st : State) :
  task_forall keeps_scriptData (fun _ => True) (handleGenerateAudio st).
Proof.
  unfold handleGenerateAudio, no_script_error, audio_attempt,
    try_catch_finally.
  repeat lazymatch goal with
    | |- True => exact I
    | |- keeps_scriptData _ => exact I
    | |- task_forall _ _ (if _ then _ else _) => apply task_forall_if
    | |- task_forall _ _ (bind _ _) => apply task_forall_bind; [|intros ?]
    | |- task_forall _ _ (try_finally _ _) => apply task_forall_try_finally
    | |- task_forall _ _ (try_catch _ _) =>
        apply task_forall_try_catch; [|intros ?]
    | |- task_forall _ _ (set _) => apply task_forall_set
    | |- task_forall _ _ (await_fetch _) => apply task_forall_await_fetch
    | |- task_forall _ _ (await_json _) => apply task_forall_await_json
    | |- task_forall _ _ (throw_new_Error _) =>
        apply task_forall_throw_new_Error
    | |- task_forall _ _ (of_result _) => apply task_forall_of_result
    | |- task_forall _ _ (Return _) => exact I
    end.
Qed.

Lemma keeps_scriptData_cell (u : update) (s : State) :
  keeps_scriptData u -> scriptData (apply_update u s) = scriptData s.
Proof. destruct u; simpl; intros H; reflexivity || contradiction. Qed.

(** X4.  An audio generation keeps the script result on every path, so
    after it, failed or not, a script that was present is still present
    and a further attempt issues the same request. *)
Theorem generate_audio_keeps_script (st : State) :
  let st' := state_after (events_of network (handleGenerateAudio st)) st in
  scriptData st' = scriptData st
  /\ forall script, script_present st script ->
       script_present st' script
       /\ requests (events_of network (handleGenerateAudio st'))
          = [audio_request (Some script)].
Proof.
  intros st'.
  assert (Hdata : scriptData st' = scriptData st).
  { apply (state_after_keeps (P := keeps_scriptData)).
    - apply keeps_scriptData_cell.
    - apply (task_forall_events network _ _ _
               (handleGenerateAudio_keeps_scriptData st)). }
  split; [exact Hdata|].
  intros script Hp.
  assert (Hp' : script_present st' script).
  { unfold script_present in *. rewrite Hdata. exact Hp. }
  split; [exact Hp'|].
  rewrite (handleGenerateAudio_present Hp').
  apply (audio_attempt_requests network Hp').
Qed.

(** ** The state after an attempt *)

Ltac run :=
  cbn -[get_property ToString or_else lit script_request audio_request
        API_BASE_URL app].

(** A script generation ends in one of two states: the parsed body as the
    script result and no error, or an error and no script result. *)
Lemma script_attempt_outcome (sourceType content : jsstring) (st : State) :
  let st' :=
    state_after (events_of network (handleGenerateScript sourceType content))
      st in
  (exists data,
     st' = mkState (userInput st) data None false (isLoadingAudio st) None)
  \/ (exists msg,
        st' = mkState (userInput st) JNull None false (isLoadingAudio st)
                (Some msg)).
Proof.
  unfold handleGenerateScript, try_catch_finally, throw_new_Error. run.
  destruct (network (script_request sourceType content)) as [response|e];
    run; [|eauto].
  destruct (ok response); run;
    (destruct (json_body response) as [data|e]; run; [|eauto]).
  - eauto.
  - destruct (get_property data (lit "detail")) as [detail|e]; run; [|eauto].
    destruct (ToString (or_else detail
                (Some (JString (lit "Failed to generate script.")))))
      as [msg|e]; run; eauto.
Qed.

(** An audio generation ends in one of two states: an address under the
    base address as the audio result and no error, or an error and no
    audio result. *)
Lemma audio_attempt_outcome (st : State) :
  let st' := state_after (events_of network (audio_attempt st)) st in
  (exists path,
     st' = mkState (userInput st) (scriptData st)
             (Some (API_BASE_URL ++ path)) (isLoadingScript st) false None)
  \/ (exists msg,
        st' = mkState (userInput st) (scriptData st) None
                (isLoadingScript st) false (Some msg)).
Proof.
  unfold audio_attempt, try_catch_finally, throw_new_Error. run.
  destruct (get_property (scriptData st) (lit "script")) as [script|e];
    run; [|eauto].
  destruct (network (audio_request script)) as [response|e]; run; [|eauto].
  destruct (ok response); run;
    (destruct (json_body response) as [data|e]; run; [|eauto]).
  - destruct (get_property data (lit "audio_url")) as [audio_url|e];
      run; [|eauto].
    destruct (ToString audio_url) as [path|e]; run; eauto.
  - destruct (get_property data (lit "detail")) as [detail|e]; run; [|eauto].
    destruct (ToString (or_else detail
                (Some (JString (lit "Failed to generate audio.")))))
      as [msg|e]; run; eauto.
Qed.

(** X5.  A success response of [/generate-script] whose body is JSON
    replaces what was shown: the parsed body becomes the script result,
    error and audio result are empty and the script-loading flag is
    false, whatever they were before. *)
Theorem generate_script_success (sourceType content : jsstring) (st : State)
  (response : Response) (data : json) :
  network (script_request sourceType content) = Ok response ->
  ok response = true ->
  json_body response = Ok data ->
  state_after (events_of network (handleGenerateScript sourceType content)) st
  = mkState (userInput st) data None false (isLoadingAudio st) None.
Proof.
  intros Hnet Hok Hbody.
  unfold handleGenerateScript, try_catch_finally. run.
  rewrite Hnet. run. rewrite Hok. run. rewrite Hbody. reflexivity.
Qed.

(** X6.  After a script generation an error and a script result are
    never shown together, and no audio result is left; after an audio
    generation with a script present exactly one of the audio result and
    the error is set, and a stored audio address always begins with the
    base address. *)
Theorem attempt_ends_with_result_or_error :
  (forall (sourceType content : jsstring) (st : State),
     let st' :=
       state_after
         (events_of network (handleGenerateScript sourceType content)) st in
     (error st' = None \/ scriptData st' = JNull)
     /\ audioUrl st' = None)
  /\ (forall (st : State) (script : json),
        script_present st script ->
        let st' := state_after (events_of network (handleGenerateAudio st)) st in
        (error st' = None
         /\ exists path, audioUrl st' = Some (API_BASE_URL ++ path))
        \/ (audioUrl st' = None /\ exists msg, error st' = Some msg)).
Proof.
  split.
  - intros sourceType content st st'. subst st'.
    destruct (script_attempt_outcome sourceType content st)
      as [[data ->] | [msg ->]]; simpl; auto.
  - intros st script Hp st'. subst st'.
    rewrite (handleGenerateAudio_present Hp).
    destruct (audio_attempt_outcome st) as [[path ->] | [msg ->]]; simpl.
    + left. split; [reflexivity | exists path; reflexivity].
    + right. split; [reflexivity | exists msg; reflexivity].
Qed.

Lemma apply_update_same_results (u : update) (s1 s2 : State) :
  same_results s1 s2 -> same_results (apply_update u s1) (apply_update u s2).
Proof.
  unfold same_results. intros (He & Hd & Ha & Hl).
  destruct u; simpl; auto.
Qed.

Lemma fold_updates_same_results (us : list update) (s1 s2 : State) :
  same_results s1 s2 ->
  same_results (fold_left (fun s u => apply_update u s) us s1)
               (fold_left (fun s u => apply_update u s) us s2).
Proof.
  revert s1 s2; induction us as [|u us IH]; intros s1 s2 H; simpl.
  - exact H.
  - apply IH, apply_update_same_results, H.
Qed.

(** X7.  What a script generation leaves behind does not depend on what
    was shown before it: from any two earlier states it ends with the same
    error, script result, audio result and script-loading flag. *)
Theorem generate_script_forgets_history (sourceType content : jsstring)
  (st1 st2 : State) :
  let evs := events_of network (handleGenerateScript sourceType content) in
  same_results (state_after evs st1) (state_after evs st2).
Proof.
  unfold handleGenerateScript, state_after.
  cbn [bind set events_of updates fold_left].
  apply fold_updates_same_results. repeat split.
Qed.

(** X8.  When a success response of [/generate-audio] has a JSON body
    without [audio_url], no error is shown and the audio result is the
    base address followed by the text [undefined]. *)
Theorem generate_audio_missing_url (st : State) (script : json)
  (response : Response) (data : json) :
  script_present st script ->
  network (audio_request (Some script)) = Ok response ->
  ok response = true ->
  json_body response = Ok data ->
  get_property data (lit "audio_url") = Ok None ->
  let st' := state_after (events_of network (handleGenerateAudio st)) st in
  audioUrl st' = Some (lit "http://127.0.0.1:8000undefined")
  /\ error st' = None.
Proof.
  intros Hp Hnet Hok Hbody Hurl.
  rewrite (handleGenerateAudio_present Hp). destruct Hp as [Hget _].
  unfold audio_attempt, try_catch_finally. run.
  rewrite Hget. run. rewrite Hnet. run. rewrite Hok. run.
  rewrite Hbody. run. rewrite Hurl. split; reflexivity.
Qed.

(** X9.  A success status does not make a result: when the body of a
    success response cannot be read as JSON, either handler shows the
    message of that failure and stores no result; and when the body of a
    success response of [/generate-audio] is [null], the message shown is
    the one of reading [audio_url] from [null]. *)
Theorem success_status_with_unusable_body :
  (forall (sourceType content : jsstring) (st : State)
          (response : Response) (e : error_object),
     network (script_request sourceType content) = Ok response ->
     ok response = true ->
     json_body response = Throw e ->
     let st' :=
       state_after
         (events_of network (handleGenerateScript sourceType content)) st in
     error st' = Some (message e) /\ scriptData st' = JNull)
  /\ (forall (st : State) (script : json) (response : Response)
             (e : error_object),
        script_present st script ->
        network (audio_request (Some script)) = Ok response ->
        ok response = true ->
        json_body response = Throw e ->
        let st' := state_after (events_of network (handleGenerateAudio st)) st in
        error st' = Some (message e) /\ audioUrl st' = None)
  /\ (forall (st : State) (script : json) (response : Response),
        script_present st script ->
        network (audio_request (Some script)) = Ok response ->
        ok response = true ->
        json_body response = Ok JNull ->
        let st' := state_after (events_of network (handleGenerateAudio st)) st in
        error st' = Some (null_property_message (lit "audio_url"))
        /\ audioUrl st' = None).
Proof.
  split; [|split].
  - intros sourceType content st response e Hnet Hok Hbody.
    unfold handleGenerateScript, try_catch_finally. run.
    rewrite Hnet. run. rewrite Hok. run. rewrite Hbody.
    split; reflexivity.
  - intros st script response e Hp Hnet Hok Hbody.
    rewrite (handleGenerateAudio_present Hp). destruct Hp as [Hget _].
    unfold audio_attempt, try_catch_finally. run.
    rewrite Hget. run. rewrite Hnet. run. rewrite Hok. run. rewrite Hbody.
    split; reflexivity.
  - intros st script response Hp Hnet Hok Hbody.
    rewrite (handleGenerateAudio_present Hp). destruct Hp as [Hget _].
    unfold audio_attempt, try_catch_finally. run.
    rewrite Hget. run. rewrite Hnet. run. rewrite Hok. run. rewrite Hbody.
    split; reflexivity.
Qed.

(** X10.  When the body of a failure response is a JSON value whose
    [detail] is truthy, the error shown is the string conversion of that
    [detail]; when the conversion itself fails, or when the body is
    [null], the error shown is the message of that [TypeError]. *)
Theorem failure_detail_is_converted (sourceType content : jsstring)
  (st : State) (response : Response) (errData : json) :
  network (script_request sourceType content) = Ok response ->
  ok response = false ->
  json_body response = Ok errData ->
  let st' :=
    state_after (events_of network (handleGenerateScript sourceType content))
      st in
  (forall (detail : value) (text : jsstring),
     get_property errData (lit "detail") = Ok detail ->
     truthy detail = true ->
     ToString detail = Ok text ->
     error st' = Some text)
  /\ (forall (detail : value) (e : error_object),
        get_property errData (lit "detail") = Ok detail ->
        truthy detail = true ->
        ToString detail = Throw e ->
        error st' = Some (message e))
  /\ (errData = JNull ->
      error st' = Some (null_property_message (lit "detail"))).
Proof.
  intros Hnet Hok Hbody.
  unfold handleGenerateScript, try_catch_finally, throw_new_Error. run.
  rewrite Hnet. run. rewrite Hok. run. rewrite Hbody. run.
  split; [|split].
  - intros detail text Hdetail Htruthy Htext. rewrite Hdetail. run.
    unfold or_else. rewrite Htruthy, Htext. reflexivity.
  - intros detail e Hdetail Htruthy Htext. rewrite Hdetail. run.
    unfold or_else. rewrite Htruthy, Htext. reflexivity.
  - intros ->. reflexivity.
Qed.

(** ** One operation after the other *)

(** X11.  After a successful script generation whose result has a truthy
    [script], an audio generation sends exactly that script. *)
Theorem audio_after_script_sends_new_script (sourceType content : jsstring)
  (st : State) (response : Response) (data script : json) :
  network (script_request sourceType content) = Ok response ->
  ok response = true ->
  json_body response = Ok data ->
  get_property data (lit "script") = Ok (Some script) ->
  truthy (Some script) = true ->
  let st' :=
    state_after (events_of network (handleGenerateScript sourceType content))
      st in
  requests (events_of network (handleGenerateAudio st'))
  = [audio_request (Some script)].
Proof.
  intros Hnet Hok Hbody Hscript Htruthy st'.
  assert (Hst : st' = mkState (userInput st) data None false
                        (isLoadingAudio st) None).
  { subst st'. unfold handleGenerateScript, try_catch_finally. run.
    rewrite Hnet. run. rewrite Hok. run. rewrite Hbody. reflexivity. }
  assert (Hp : script_present st' script).
  { rewrite Hst. split; assumption. }
  rewrite (handleGenerateAudio_present Hp).
  apply (audio_attempt_requests network Hp).
Qed.

(** X12.  After a script generation that ended with an error, an audio
    generation is refused: it issues no request and shows the message of
    the missing script. *)
Theorem audio_after_failed_script_is_refused (sourceType content : jsstring)
  (st : State) :
  let st' :=
    state_after (events_of network (handleGenerateScript sourceType content))
      st in
  error st' <> None ->
  let evs := events_of network (handleGenerateAudio st') in
  requests evs = []
  /\ error (state_after evs st')
     = Some (lit "No script available to generate audio from.").
Proof.
  intros st' Herr.
  assert (Hnull : scriptData st' = JNull).
  { subst st'.
    destruct (script_attempt_outcome sourceType content st)
      as [[data Hst] | [msg Hst]]; rewrite Hst in *; simpl in *.
    - congruence.
    - reflexivity. }
  assert (Habs : script_absent st').
  { left. rewrite Hnull. reflexivity. }
  rewrite (handleGenerateAudio_absent Habs). split; reflexivity.
Qed.

(** ** Text submission *)

Lemma classify_cases (text : jsstring) :
  (includes text (lit "github.com/") = true /\ classify text = lit "github")
  \/ (includes text (lit "github.com/") = false
      /\ (classify text = lit "script" \/ classify text = lit "topic")).
Proof.
  unfold classify. destruct (includes text (lit "github.com/")).
  - left. split; reflexivity.
  - right. split; [reflexivity|].
    destruct (50 <? List.length (split_whitespace text)); auto.
Qed.

(** X13.  Every non-empty text, a text of whitespace only included, is
    sent by [handleSubmitFromText] in one request whose body has the two
    members [source_type] and [content]; the content is the text as
    typed, untrimmed, and the source type is [topic], [github] or
    [script], never [file]. *)
Theorem submit_text_sends_input_verbatim (text : jsstring) (st : State) :
  text <> [] ->
  exists sourceType,
    requests (events_of network (handleSubmitFromText (setUserInput text st)))
    = [script_request sourceType text]
    /\ body (script_request sourceType text)
       = JObject [(lit "source_type", JString sourceType);
                  (lit "content", JString text)]
    /\ In sourceType [lit "topic"; lit "github"; lit "script"]
    /\ sourceType <> lit "file".
Proof.
  intros Hne. exists (classify text).
  rewrite handleSubmitFromText_nonempty by exact Hne.
  cbn [setUserInput userInput].
  rewrite handleGenerateScript_requests.
  split; [reflexivity|]. split; [reflexivity|].
  destruct (classify_cases text) as [[_ ->] | [_ [-> | ->]]];
    (split; [simpl; auto | discriminate]).
Qed.

(** X14.  For a non-empty text without [github.com/], more than 50
    whitespace-delimited tokens always give the source type [script] and
    fewer than 49 always give [topic]: only at 49 or 50 tokens does
    whitespace at the ends of the text decide. *)
Theorem submit_text_token_bounds (st : State) :
  userInput st <> [] ->
  ~ contains_substring (userInput st) (lit "github.com/") ->
  (50 < token_count (userInput st) ->
   requests (events_of network (handleSubmitFromText st))
   = [script_request (lit "script") (userInput st)])
  /\ (token_count (userInput st) < 49 ->
      requests (events_of network (handleSubmitFromText st))
      = [script_request (lit "topic") (userInput st)]).
Proof.
  intros Hne Hgh.
  rewrite (handleSubmitFromText_nonempty _ Hne), handleGenerateScript_requests.
  unfold classify.
  destruct (includes (userInput st) (lit "github.com/")) eqn:Hinc.
  { apply includes_spec in Hinc. contradiction. }
  rewrite (split_whitespace_length Hne).
  destruct (leading_whitespace (userInput st));
    destruct (trailing_whitespace (userInput st)); simpl Nat.b2n;
    split; intros Hcount;
    match goal with
    | |- context [?a <? ?b] => destruct (Nat.ltb_spec a b)
    end; try reflexivity; lia.
Qed.

(** X15.  Submitting the empty text or selecting no file changes the
    error message and nothing else: results and loading flags stay as
    they were. *)
Theorem validation_changes_only_the_error :
  (forall st : State,
     userInput st = [] ->
     state_after (events_of network (handleSubmitFromText st)) st
     = mkState (userInput st) (scriptData st) (audioUrl st)
         (isLoadingScript st) (isLoadingAudio st)
         (Some (lit "Please provide input in the text area.")))
  /\ (forall (files : option (list File)) (st : State),
        files = None \/ files = Some [] ->
        state_after (events_of network (handleFileChange files)) st
        = mkState (userInput st) (scriptData st) (audioUrl st)
            (isLoadingScript st) (isLoadingAudio st)
            (Some (lit "Please upload at least one file."))).
Proof.
  split.
  - intros st Hempty.
    assert (H : handleSubmitFromText st
                = set (setError
                         (Some (lit "Please provide input in the text area.")))).
    { unfold handleSubmitFromText. rewrite Hempty. reflexivity. }
    rewrite H. reflexivity.
  - intros files st [-> | ->]; reflexivity.
Qed.

(** ** File selection *)

Lemma all_read_texts (files : list File) :
  all_read files -> map read_as_text files = map Ok (texts_of files).
Proof.
  induction 1 as [|file files [text Hread] _ IH]; simpl.
  - reflexivity.
  - rewrite Hread, IH. reflexivity.
Qed.

Lemma all_read_or_not (files : list File) :
  all_read files
  \/ Exists (fun file => exists e, read_as_text file = Throw e) files.
Proof.
  induction files as [|file files [IH | IH]].
  - left. constructor.
  - destruct (read_as_text file) as [text|e] eqn:Hread.
    + left. constructor; [exists text; exact Hread | exact IH].
    + right. apply Exists_cons_hd. exists e. exact Hread.
  - right. apply Exists_cons_tl. exact IH.
Qed.

Lemma not_all_read (files : list File) :
  Exists (fun file => exists e, read_as_text file = Throw e) files ->
  ~ all_read files.
Proof.
  induction 1 as [file files [e He] | file files _ IH]; intros Hall;
    inversion Hall as [|? ? [text Hread] Hrest]; subst.
  - congruence.
  - apply IH, Hrest.
Qed.

Lemma file_selection_is_script_generation_aux (files : list File) :
  files <> [] ->
  all_read files ->
  events_of network (handleFileChange (Some files))
  = Suspended
    :: events_of network
         (handleGenerateScript (lit "file")
            (combined_payload (combine (map name files) (texts_of files))))
  /\ settles network (handleFileChange (Some files)) = Ok tt.
Proof.
  intros Hne Hall.
  destruct files as [|file files]; [congruence|].
  unfold handleFileChange, await_all.
  rewrite (promise_all_file_content _ _ (all_read_texts Hall)).
  cbn [bind of_result events_of settles].
  rewrite join_file_sections.
  split; [reflexivity | apply handleGenerateScript_settles].
Qed.

(** X16.  Once every file of a non-empty selection is read,
    [handleFileChange] goes on exactly as a script generation of type
    [file] for the combined payload; until then it calls no setter, so no
    loading flag is set while the files are being read. *)
Theorem file_selection_is_script_generation (files : list File) :
  files <> [] ->
  all_read files ->
  let payload := combined_payload (combine (map name files) (texts_of files)) in
  events_of network (handleFileChange (Some files))
  = Suspended :: events_of network (handleGenerateScript (lit "file") payload)
  /\ before_suspension (events_of network (handleFileChange (Some files))) = []
  /\ settles network (handleFileChange (Some files)) = Ok tt.
Proof.
  intros Hne Hall payload. subst payload.
  destruct files as [|file files]; [congruence|].
  unfold handleFileChange, await_all.
  rewrite (promise_all_file_content _ _ (all_read_texts Hall)).
  cbn [bind of_result events_of settles before_suspension].
  rewrite join_file_sections.
  split; [reflexivity|]. split; [reflexivity|].
  apply handleGenerateScript_settles.
Qed.

(** X17.  [handleFileChange] issues a request exactly when the selection
    is non-empty and every file is read, and its promise is rejected
    exactly when some file of the selection is not read. *)
Theorem file_selection_request_iff (files : option (list File)) :
  (requests (events_of network (handleFileChange files)) <> []
   <-> exists selected,
         files = Some selected /\ selected <> [] /\ all_read selected)
  /\ ((exists e, settles network (handleFileChange files) = Throw e)
      <-> exists selected, files = Some selected /\ ~ all_read selected).
Proof.
  destruct files as [[|file files]|].
  - simpl. split; split.
    + congruence.
    + intros [selected [H [Hne _]]]. injection H as <-. congruence.
    + intros [e He]. discriminate.
    + intros [selected [H Hnot]]. injection H as <-.
      destruct Hnot. constructor.
  - destruct (all_read_or_not (file :: files)) as [Hall | Hfail].
    + assert (Hne : file :: files <> []) by discriminate.
      destruct (file_selection_is_script_generation_aux Hne Hall)
        as [Hevs Hsettles].
      rewrite Hevs, Hsettles. cbn [requests].
      rewrite handleGenerateScript_requests.
      split; split.
      * intros _. exists (file :: files). auto.
      * discriminate.
      * intros [e He]. discriminate.
      * intros [selected [H Hnot]]. injection H as <-. contradiction.
    + destruct (read_failure_aborts_aggregation network Hfail)
        as [Hevs [e Hsettles]].
      rewrite Hevs, Hsettles. cbn [requests].
      split; split.
      * congruence.
      * intros [selected [H [_ Hall]]]. injection H as <-.
        destruct (not_all_read Hfail Hall).
      * intros _. exists (file :: files).
        split; [reflexivity | apply not_all_read, Hfail].
      * intros _. exists e. reflexivity.
  - simpl. split; split.
    + congruence.
    + intros [selected [H _]]. discriminate.
    + intros [e He]. discriminate.
    + intros [selected [H _]]. discriminate.
Qed.

(** ** The example prompts *)

Lemma contains_longer_pattern (text p q : jsstring) :
  contains_substring text (p ++ q) -> contains_substring text p.
Proof.
  intros [pre [post H]]. exists pre, (q ++ post).
  rewrite H, <- app_assoc. reflexivity.
Qed.

(** X18.  A prompt that is sent as [github] is always shown on its
    button as [GitHub Repo]; and each of the four example prompts, once
    chosen and submitted, is sent in full with the source type its button
    suggests: [github] under the label [GitHub Repo], [topic] under its
    own text. *)
Theorem example_label_matches_source_type :
  (forall (ex : jsstring) (st : State),
     contains_substring ex (lit "github.com/") ->
     example_label ex = lit "GitHub Repo"
     /\ requests (events_of network (handleSubmitFromText (setUserInput ex st)))
        = [script_request (lit "github") ex])
  /\ Forall
       (fun ex =>
          forall st : State,
            requests
              (events_of network (handleSubmitFromText (setUserInput ex st)))
            = [script_request
                 (if jsstring_eqb (example_label ex) (lit "GitHub Repo")
                  then lit "github" else lit "topic")
                 ex])
       examples.
Proof.
  split.
  - intros ex st Hgh.
    assert (Hne : ex <> []).
    { destruct Hgh as [pre [post H]]. rewrite H. destruct pre; discriminate. }
    split.
    + unfold example_label.
      assert (H : includes ex (lit "github") = true).
      { apply includes_spec.
        apply (@contains_longer_pattern ex (lit "github") (lit ".com/")).
        exact Hgh. }
      rewrite H. reflexivity.
    + rewrite handleSubmitFromText_nonempty by exact Hne.
      cbn [setUserInput userInput]. rewrite handleGenerateScript_requests.
      unfold classify. apply includes_spec in Hgh. rewrite Hgh. reflexivity.
  - unfold examples.
    repeat (constructor;
            [intros st; rewrite handleSubmitFromText_nonempty by discriminate;
             cbn [setUserInput userInput];
             rewrite handleGenerateScript_requests; reflexivity|]).
    constructor.
Qed.

End Outcomes.

(** * The cursor trail *)

Section Trail.

Context {engine : Engine}.

Variable strict_equal : number -> number -> bool.

Lemma add_bubbles_app (later bubbles : list Bubble) :
  fold_left (fun prev b => add_bubble b prev) later bubbles
  = bubbles ++ later.
Proof.
  revert bubbles; induction later as [|b later IH]; intros bubbles; simpl.
  - symmetry. apply app_nil_r.
  - rewrite IH. unfold add_bubble. rewrite <- app_assoc. reflexivity.
Qed.

Lemma remove_bubble_others (newBubble : Bubble) (bubbles : list Bubble) :
  (forall b, In b bubbles -> strict_equal (id b) (id newBubble) = false) ->
  remove_bubble strict_equal newBubble bubbles = bubbles.
Proof.
  intros H. unfold remove_bubble. induction bubbles as [|b bubbles IH]; simpl.
  - reflexivity.
  - rewrite (H b) by (left; reflexivity). simpl. f_equal.
    apply IH. intros b' Hb'. apply H. right. exact Hb'.
Qed.

(** X19.  The timer of a bubble removes that bubble and no other: with an
    identifier that equals itself and differs from those of the other
    bubbles, adding the bubble, then any later bubbles, then running its
    timer leaves the earlier and later bubbles, in order. *)
Theorem bubble_removed_by_its_timer (newBubble : Bubble)
  (prev later : list Bubble) :
  strict_equal (id newBubble) (id newBubble) = true ->
  (forall b, In b (prev ++ later) ->
             strict_equal (id b) (id newBubble) = false) ->
  remove_bubble strict_equal newBubble
    (fold_left (fun bubbles b => add_bubble b bubbles) later
       (add_bubble newBubble prev))
  = prev ++ later.
Proof.
  intros Hself Hothers. rewrite add_bubbles_app. unfold add_bubble.
  unfold remove_bubble. rewrite !filter_app. simpl. rewrite Hself. simpl.
  rewrite app_nil_r.
  fold (remove_bubble strict_equal newBubble prev).
  fold (remove_bubble strict_equal newBubble later).
  rewrite !remove_bubble_others; [reflexivity | |];
    intros b Hb; apply Hothers, in_or_app; auto.
Qed.

Lemma timers_fire_filter (fired bubbles : list Bubble) :
  timers_fire strict_equal fired bubbles
  = filter
      (fun b => forallb (fun r => negb (strict_equal (id b) (id r))) fired)
      bubbles.
Proof.
  unfold timers_fire.
  revert bubbles; induction fired as [|r fired IH]; intros bubbles; simpl.
  - induction bubbles as [|b bubbles IHb]; simpl; congruence.
  - rewrite IH. unfold remove_bubble.
    induction bubbles as [|b bubbles IHb]; simpl; [reflexivity|].
    destruct (strict_equal (id b) (id r)); simpl; [exact IHb|].
    destruct (forallb _ fired); simpl; rewrite IHb; reflexivity.
Qed.

(** X20.  No bubble outlives its timer: once the timer of every bubble
    has run, in whatever order, and every identifier equals itself, the
    list of bubbles is empty; in particular after any sequence of pointer
    moves followed by all their timers. *)
Theorem all_timers_fired_leaves_no_bubble (fired bubbles : list Bubble) :
  (forall b, In b bubbles ->
     exists r, In r fired /\ strict_equal (id b) (id r) = true) ->
  timers_fire strict_equal fired bubbles = []
  /\ timers_fire strict_equal fired
       (fold_left (fun prev b => add_bubble b prev) bubbles [])
     = [].
Proof.
  intros Hfired.
  assert (H : timers_fire strict_equal fired bubbles = []).
  { rewrite timers_fire_filter.
    induction bubbles as [|b bubbles IH]; simpl; [reflexivity|].
    destruct (Hfired b (or_introl eq_refl)) as [r [Hr Heq]].
    assert (Hfalse : forallb (fun r => negb (strict_equal (id b) (id r)))
                       fired = false).
    { apply not_true_is_false. intros Htrue.
      rewrite forallb_forall in Htrue. specialize (Htrue r Hr).
      rewrite Heq in Htrue. discriminate. }
    rewrite Hfalse. apply IH. intros b' Hb'. apply Hfired. right. exact Hb'. }
  split; [exact H|]. rewrite add_bubbles_app. exact H.
Qed.

End Trail.

(** * The further properties at sample inputs *)

Lemma with_script_present :
  script_present with_script (JString (lit "Hello and welcome.")).
Proof. split; reflexivity. Defined.

Lemma generate_audio_one_attempt_witness :
  (exists script, script_present with_script script)
  /\ requests (events_of offline (handleGenerateAudio with_script)) <> []
  /\ requests (events_of offline (handleGenerateAudio with_script))
     = [audio_request (Some (JString (lit "Hello and welcome.")))].
Proof.
  assert (Hreq : requests (events_of offline (handleGenerateAudio with_script))
                 <> []) by (vm_compute; discriminate).
  assert (Hex : exists script, script_present with_script script).
  { exact (proj1 (proj1 (generate_audio_one_attempt offline with_script))
             Hreq). }
  split; [exact Hex|]. split.
  - exact (proj2 (proj1 (generate_audio_one_attempt offline with_script)) Hex).
  - exact (proj1 (proj2 (generate_audio_one_attempt offline with_script))
             (JString (lit "Hello and welcome.")) with_script_present).
Defined.

Lemma generate_audio_clears_on_entry_witness :
  script_present with_script (JString (lit "Hello and welcome."))
  /\ state_after
       (before_suspension (events_of offline (handleGenerateAudio with_script)))
       with_script
     = mkState (lit "Pomodoro Timer App Explained") sample_script_data None
         false true None.
Proof.
  split; [exact with_script_present|].
  exact (proj2 (generate_audio_clears_on_entry offline with_script_present)).
Defined.

Lemma generate_audio_keeps_script_witness :
  script_present with_script (JString (lit "Hello and welcome."))
  /\ script_present
       (state_after (events_of offline (handleGenerateAudio with_script))
          with_script)
       (JString (lit "Hello and welcome.")).
Proof.
  split; [exact with_script_present|].
  exact (proj1 (proj2 (generate_audio_keeps_script offline with_script)
                  (JString (lit "Hello and welcome.")) with_script_present)).
Defined.

Lemma generate_script_success_witness :
  state_after
    (events_of (answers (success_response sample_script_data))
       (handleGenerateScript (lit "topic") (lit "Pomodoro Timer App Explained")))
    with_audio_only
  = mkState [] sample_script_data None false false None.
Proof.
  exact (generate_script_success
           (answers (success_response sample_script_data))
           (lit "topic") (lit "Pomodoro Timer App Explained") with_audio_only
           eq_refl eq_refl eq_refl).
Defined.

Lemma attempt_ends_with_result_or_error_witness :
  script_present with_script (JString (lit "Hello and welcome."))
  /\ let st' :=
       state_after (events_of offline (handleGenerateAudio with_script))
         with_script in
     (error st' = None
      /\ exists path, audioUrl st' = Some (API_BASE_URL ++ path))
     \/ (audioUrl st' = None /\ exists msg, error st' = Some msg).
Proof.
  split; [exact with_script_present|].
  exact (proj2 (attempt_ends_with_result_or_error offline)
           with_script (JString (lit "Hello and welcome."))
           with_script_present).
Defined.

Lemma generate_audio_missing_url_witness :
  script_present with_script (JString (lit "Hello and welcome."))
  /\ audioUrl
       (state_after
          (events_of (answers (success_response (JObject [])))
             (handleGenerateAudio with_script))
          with_script)
     = Some (lit "http://127.0.0.1:8000undefined").
Proof.
  split; [exact with_script_present|].
  exact (proj1 (generate_audio_missing_url
                  (answers (success_response (JObject [])))
                  with_script_present eq_refl eq_refl eq_refl eq_refl)).
Defined.

Lemma success_status_with_unusable_body_witness :
  error
    (state_after
       (events_of (answers (garbled_response true))
          (handleGenerateScript (lit "topic")
             (lit "Pomodoro Timer App Explained")))
       initial_state)
  = Some (lit "Unexpected token < in JSON")
  /\ error
       (state_after
          (events_of (answers (garbled_response true))
             (handleGenerateAudio with_script))
          with_script)
     = Some (lit "Unexpected token < in JSON")
  /\ error
       (state_after
          (events_of (answers (success_response JNull))
             (handleGenerateAudio with_script))
          with_script)
     = Some (lit "Cannot read properties of null (reading 'audio_url')").
Proof.
  split; [|split].
  - exact (proj1 (proj1 (success_status_with_unusable_body
                           (answers (garbled_response true)))
                    (lit "topic") (lit "Pomodoro Timer App Explained")
                    initial_state (garbled_response true)
                    (Error (lit "Unexpected token < in JSON"))
                    eq_refl eq_refl eq_refl)).
  - exact (proj1 (proj1 (proj2 (success_status_with_unusable_body
                                  (answers (garbled_response true))))
                    with_script (JString (lit "Hello and welcome."))
                    (garbled_response true)
                    (Error (lit "Unexpected token < in JSON"))
                    with_script_present eq_refl eq_refl eq_refl)).
  - exact (proj1 (proj2 (proj2 (success_status_with_unusable_body
                                  (answers (success_response JNull))))
                    with_script (JString (lit "Hello and welcome."))
                    (success_response JNull)
                    with_script_present eq_refl eq_refl eq_refl)).
Defined.

Lemma failure_detail_is_converted_witness :
  error
    (state_after
       (events_of (answers validation_failure_response)
          (handleGenerateScript (lit "topic")
             (lit "Pomodoro Timer App Explained")))
       initial_state)
  = Some (lit "[object Object]")
  /\ error
       (state_after
          (events_of
             (answers
                (mkResponse false
                   (Ok (JObject
                          [(lit "detail",
                            JObject [(lit "toString", JBool true)])]))))
             (handleGenerateScript (lit "topic")
                (lit "Pomodoro Timer App Explained")))
          initial_state)
     = Some (lit "Cannot convert object to primitive value")
  /\ error
       (state_after
          (events_of (answers (mkResponse false (Ok JNull)))
             (handleGenerateScript (lit "topic")
                (lit "Pomodoro Timer App Explained")))
          initial_state)
     = Some (lit "Cannot read properties of null (reading 'detail')").
Proof.
  split; [|split].
  - exact (proj1 (failure_detail_is_converted
                    (answers validation_failure_response)
                    (lit "topic") (lit "Pomodoro Timer App Explained")
                    initial_state eq_refl eq_refl eq_refl)
             (Some (JArray [JObject [(lit "msg",
                                      JString (lit "field required"))]]))
             (lit "[object Object]") eq_refl eq_refl eq_refl).
  - exact (proj1 (proj2 (failure_detail_is_converted
                           (answers
                              (mkResponse false
                                 (Ok (JObject
                                        [(lit "detail",
                                          JObject [(lit "toString",
                                                    JBool true)])]))))
                           (lit "topic") (lit "Pomodoro Timer App Explained")
                           initial_state eq_refl eq_refl eq_refl))
             (Some (JObject [(lit "toString", JBool true)]))
             (Error (lit "Cannot convert object to primitive value"))
             eq_refl eq_refl eq_refl).
  - exact (proj2 (proj2 (failure_detail_is_converted
                           (answers (mkResponse false (Ok JNull)))
                           (lit "topic") (lit "Pomodoro Timer App Explained")
                           initial_state eq_refl eq_refl eq_refl))
             eq_refl).
Defined.

Lemma audio_after_script_sends_new_script_witness :
  requests
    (events_of (answers (success_response sample_script_data))
       (handleGenerateAudio
          (state_after
             (events_of (answers (success_response sample_script_data))
                (handleGenerateScript (lit "topic")
                   (lit "Pomodoro Timer App Explained")))
             initial_state)))
  = [audio_request (Some (JString (lit "Hello and welcome.")))].
Proof.
  exact (audio_after_script_sends_new_script
           (answers (success_response sample_script_data))
           (lit "topic") (lit "Pomodoro Timer App Explained") initial_state
           eq_refl eq_refl eq_refl eq_refl eq_refl).
Defined.

Lemma audio_after_failed_script_is_refused_witness :
  error
    (state_after
       (events_of offline
          (handleGenerateScript (lit "topic")
             (lit "Pomodoro Timer App Explained")))
       with_script)
  <> None
  /\ requests
       (events_of offline
          (handleGenerateAudio
             (state_after
                (events_of offline
                   (handleGenerateScript (lit "topic")
                      (lit "Pomodoro Timer App Explained")))
                with_script)))
     = [].
Proof.
  assert (Herr :
    error
      (state_after
         (events_of offline
            (handleGenerateScript (lit "topic")
               (lit "Pomodoro Timer App Explained")))
         with_script)
    <> None) by discriminate.
  split; [exact Herr|].
  exact (proj1 (audio_after_failed_script_is_refused offline
                  (lit "topic") (lit "Pomodoro Timer App Explained")
                  with_script Herr)).
Defined.

Lemma submit_text_sends_input_verbatim_witness :
  lit " " <> []
  /\ exists sourceType,
       requests
         (events_of offline
            (handleSubmitFromText (setUserInput (lit " ") initial_state)))
       = [script_request sourceType (lit " ")]
       /\ body (script_request sourceType (lit " "))
          = JObject [(lit "source_type", JString sourceType);
                     (lit "content", JString (lit " "))]
       /\ In sourceType [lit "topic"; lit "github"; lit "script"]
       /\ sourceType <> lit "file".
Proof.
  assert (Hne : lit " " <> []) by discriminate.
  split; [exact Hne|].
  exact (submit_text_sends_input_verbatim offline initial_state Hne).
Defined.

Lemma sixty_words_plain :
  ~ contains_substring sixty_words (lit "github.com/").
Proof.
  intros H. apply includes_spec in H. vm_compute in H. discriminate.
Defined.

Lemma example_prompt_plain :
  ~ contains_substring (lit "Pomodoro Timer App Explained")
      (lit "github.com/").
Proof.
  intros H. apply includes_spec in H. vm_compute in H. discriminate.
Defined.

Lemma submit_text_token_bounds_witness :
  (50 < token_count (userInput (typed sixty_words))
   /\ requests (events_of offline (handleSubmitFromText (typed sixty_words)))
      = [script_request (lit "script") sixty_words])
  /\ (token_count (userInput (typed (lit "Pomodoro Timer App Explained"))) < 49
      /\ requests
           (events_of offline
              (handleSubmitFromText
                 (typed (lit "Pomodoro Timer App Explained"))))
         = [script_request (lit "topic")
              (lit "Pomodoro Timer App Explained")]).
Proof.
  assert (Hmany : 50 < token_count (userInput (typed sixty_words)))
    by (vm_compute; lia).
  assert (Hfew :
    token_count (userInput (typed (lit "Pomodoro Timer App Explained"))) < 49)
    by (vm_compute; lia).
  assert (Hne1 : userInput (typed sixty_words) <> []) by discriminate.
  assert (Hne2 : userInput (typed (lit "Pomodoro Timer App Explained")) <> [])
    by discriminate.
  split.
  - split; [exact Hmany|].
    exact (proj1 (submit_text_token_bounds offline (typed sixty_words)
                    Hne1 sixty_words_plain) Hmany).
  - split; [exact Hfew|].
    exact (proj2 (submit_text_token_bounds offline
                    (typed (lit "Pomodoro Timer App Explained"))
                    Hne2 example_prompt_plain) Hfew).
Defined.

Lemma validation_changes_only_the_error_witness :
  state_after (events_of offline (handleSubmitFromText with_audio_only))
    with_audio_only
  = mkState [] JNull (Some (API_BASE_URL ++ lit "/audio/old.wav"))
      false false (Some (lit "Please provide input in the text area."))
  /\ state_after (events_of offline (handleFileChange (Some [])))
       with_script
     = mkState (lit "Pomodoro Timer App Explained") sample_script_data None
         false false (Some (lit "Please upload at least one file.")).
Proof.
  split.
  - exact (proj1 (validation_changes_only_the_error offline)
             with_audio_only eq_refl).
  - exact (proj2 (validation_changes_only_the_error offline)
             (Some []) with_script (or_intror eq_refl)).
Defined.

Lemma readable_selection_all_read : all_read readable_selection.
Proof.
  repeat constructor; eexists; reflexivity.
Defined.

Lemma unreadable_selection_not_all_read : ~ all_read unreadable_selection.
Proof.
  intros H. inversion H as [|? ? _ Hrest]. inversion Hrest as [|? ? [text Ht] _].
  discriminate.
Defined.

Lemma file_selection_is_script_generation_witness :
  readable_selection <> []
  /\ all_read readable_selection
  /\ events_of offline (handleFileChange (Some readable_selection))
     = Suspended
       :: events_of offline
            (handleGenerateScript (lit "file")
               (lit "--- CONTENT FROM a.txt ---" ++ newline ++ lit "hello"
                ++ newline ++ newline
                ++ lit "--- CONTENT FROM b.txt ---" ++ newline
                ++ lit "world")).
Proof.
  assert (Hne : readable_selection <> []) by discriminate.
  split; [exact Hne|]. split; [exact readable_selection_all_read|].
  exact (proj1 (file_selection_is_script_generation offline Hne
                  readable_selection_all_read)).
Defined.

Lemma file_selection_request_iff_witness :
  (exists selected,
     Some readable_selection = Some selected /\ selected <> []
     /\ all_read selected)
  /\ requests (events_of offline (handleFileChange (Some readable_selection)))
     <> []
  /\ (exists selected,
        Some unreadable_selection = Some selected /\ ~ all_read selected)
  /\ exists e,
       settles offline (handleFileChange (Some unreadable_selection))
       = Throw e.
Proof.
  assert (Hreq :
    requests (events_of offline (handleFileChange (Some readable_selection)))
    <> []) by (vm_compute; discriminate).
  assert (Hrejected : exists e,
    settles offline (handleFileChange (Some unreadable_selection)) = Throw e).
  { exists (Error (lit "NotReadableError")). reflexivity. }
  assert (Hread : exists selected,
            Some readable_selection = Some selected /\ selected <> []
            /\ all_read selected).
  { exact (proj1 (proj1 (file_selection_request_iff offline
                           (Some readable_selection))) Hreq). }
  assert (Hunread : exists selected,
            Some unreadable_selection = Some selected /\ ~ all_read selected).
  { exact (proj1 (proj2 (file_selection_request_iff offline
                           (Some unreadable_selection))) Hrejected). }
  split; [exact Hread|]. split.
  - exact (proj2 (proj1 (file_selection_request_iff offline
                           (Some readable_selection))) Hread).
  - split; [exact Hunread|].
    exact (proj2 (proj2 (file_selection_request_iff offline
                           (Some unreadable_selection))) Hunread).
Defined.

Lemma example_label_matches_source_type_witness :
  contains_substring (lit "https://github.com/google/generative-ai-docs")
    (lit "github.com/")
  /\ example_label (lit "https://github.com/google/generative-ai-docs")
     = lit "GitHub Repo"
  /\ requests
       (events_of offline
          (handleSubmitFromText
             (setUserInput (lit "https://github.com/google/generative-ai-docs")
                initial_state)))
     = [script_request (lit "github")
          (lit "https://github.com/google/generative-ai-docs")].
Proof.
  assert (Hgh : contains_substring
                  (lit "https://github.com/google/generative-ai-docs")
                  (lit "github.com/")).
  { exists (lit "https://"), (lit "google/generative-ai-docs"). reflexivity. }
  split; [exact Hgh|].
  exact (proj1 (example_label_matches_source_type offline)
           (lit "https://github.com/google/generative-ai-docs")
           initial_state Hgh).
Defined.

Lemma bubble_removed_by_its_timer_witness :
  Z.eqb (id bubble_b) (id bubble_b) = true
  /\ (forall b, In b ([bubble_a] ++ [bubble_c]) ->
                Z.eqb (id b) (id bubble_b) = false)
  /\ remove_bubble Z.eqb bubble_b
       (add_bubble bubble_c (add_bubble bubble_b [bubble_a]))
     = [bubble_a; bubble_c].
Proof.
  assert (Hothers : forall b, In b ([bubble_a] ++ [bubble_c]) ->
                              Z.eqb (id b) (id bubble_b) = false).
  { intros b [<- | [<- | []]]; reflexivity. }
  split; [reflexivity|]. split; [exact Hothers|].
  exact (bubble_removed_by_its_timer Z.eqb bubble_b [bubble_a] [bubble_c]
           eq_refl Hothers).
Defined.

Lemma all_timers_fired_leaves_no_bubble_witness :
  (forall b, In b [bubble_a; bubble_b; bubble_c] ->
     exists r, In r [bubble_c; bubble_a; bubble_b]
               /\ Z.eqb (id b) (id r) = true)
  /\ timers_fire Z.eqb [bubble_c; bubble_a; bubble_b]
       [bubble_a; bubble_b; bubble_c]
     = [].
Proof.
  assert (H : forall b, In b [bubble_a; bubble_b; bubble_c] ->
     exists r, In r [bubble_c; bubble_a; bubble_b]
               /\ Z.eqb (id b) (id r) = true).
  { intros b [<- | [<- | [<- | []]]].
    - exists bubble_a. split; [right; left; reflexivity | reflexivity].
    - exists bubble_b. split; [right; right; left; reflexivity | reflexivity].
    - exists bubble_c. split; [left; reflexivity | reflexivity]. }
  split; [exact H|].
  exact (proj1 (all_timers_fired_leaves_no_bubble Z.eqb
                  [bubble_c; bubble_a; bubble_b]
                  [bubble_a; bubble_b; bubble_c] H)).
Defined.
